(** * Rule-based analyzer of [backend/models/analyzer.py]

    A shallow embedding of [PythonCodeAnalyzer]: the syntax tree the checks
    walk, the five checks, the scoring function and [analyze_code], followed
    by the properties of the analysis result.

    Conventions of the embedding.
    - Source text is a [string] of ASCII characters.
    - [ast.parse] is a collaborator of the analyzer: it is a variable of the
      development ([ast_parse]), every theorem holds for any parser.  A parse
      returns a tree or raises [SyntaxError]; other failures of the parser
      (recursion depth, memory) are not modelled.
    - The instance field [self.issues] is threaded explicitly: a method is a
      function from the analyzer state to an outcome and the next state.
    - An uncaught Python exception is the outcome [Raise]. *)

From Stdlib Require Import List ZArith QArith Qround Lia Bool Ascii String
  Permutation DecimalString.
Import ListNotations.

Local Open Scope string_scope.
Local Open Scope list_scope.
Local Open Scope Z_scope.

(** ** Python values used by the analyzer *)

(** A Python number is an [int] or a [float]; a float is represented by the
    rational it denotes.  The only float the analyzer builds is [100.0]. *)
Inductive number : Type :=
| Int (z : Z)
| Float (q : Q).

Definition number_value (x : number) : Q :=
  match x with
  | Int z => inject_Z z
  | Float q => q
  end.

(** Python's [==] on numbers compares the denoted values: [100 == 100.0]. *)
Definition number_eq (x y : number) : bool :=
  Qeq_bool (number_value x) (number_value y).

(** [str(n)] for an [int]. *)
Definition str_of_int (n : Z) : string :=
  NilZero.string_of_int (Z.to_int n).

(** [x or y] on an optional line number: [None] and [0] are falsy. *)
Definition or_else (x : option Z) (y : Z) : Z :=
  match x with
  | Some v => if v =? 0 then y else v
  | None => y
  end.

(** ** Strings *)

(** [s.split(sep)] for a one-character separator: the pieces between the
    occurrences of [sep], an empty piece included. *)
Fixpoint split (sep : ascii) (s : string) : list string :=
  match s with
  | EmptyString => [EmptyString]
  | String c rest =>
      if Ascii.eqb c sep then EmptyString :: split sep rest
      else match split sep rest with
           | piece :: pieces => String c piece :: pieces
           | [] => [String c EmptyString]
           end
  end.

Definition newline : ascii := "010"%char.
Definition dot : ascii := "."%char.

(** [s.startswith(p)]. *)
Fixpoint startswith (p s : string) : bool :=
  match p, s with
  | EmptyString, _ => true
  | String a p', String b s' => Ascii.eqb a b && startswith p' s'
  | String _ _, EmptyString => false
  end.

Definition in_range (lo hi c : ascii) : bool :=
  (nat_of_ascii lo <=? nat_of_ascii c)%nat && (nat_of_ascii c <=? nat_of_ascii hi)%nat.

Definition is_lower (c : ascii) : bool := in_range "a" "z" c.
Definition is_upper (c : ascii) : bool := in_range "A" "Z" c.
Definition is_digit (c : ascii) : bool := in_range "0" "9" c.
Definition is_underscore (c : ascii) : bool := Ascii.eqb c "_".

(** The class [\w] of [re] on ASCII text. *)
Definition is_word_char (c : ascii) : bool :=
  is_lower c || is_upper c || is_digit c || is_underscore c.

Definition is_word (c : option ascii) : bool :=
  match c with
  | Some c => is_word_char c
  | None => false
  end.

(** [\b] between two neighbouring positions; outside the text counts as a
    non-word character. *)
Definition word_boundary (prev next : option ascii) : bool :=
  xorb (is_word prev) (is_word next).

Definition head (s : string) : option ascii :=
  match s with
  | EmptyString => None
  | String c _ => Some c
  end.

Fixpoint last_char (s : string) (default : option ascii) : option ascii :=
  match s with
  | EmptyString => default
  | String c rest => last_char rest (Some c)
  end.

Fixpoint drop (n : nat) (s : string) : string :=
  match n, s with
  | O, _ => s
  | S n', String _ rest => drop n' rest
  | S _, EmptyString => EmptyString
  end.

(** Does [\b<name>\b] match at the current position?  [prev] is the
    character before the position, [s] the text from the position on. *)
Definition word_matches_here (name : string) (prev : option ascii) (s : string) : bool :=
  word_boundary prev (head s)
  && startswith name s
  && word_boundary (last_char name prev) (head (drop (String.length name) s)).

(** The left-to-right scan of [re.findall]: matches do not overlap, so the
    [skip] positions covered by the last match are passed over. *)
Fixpoint findall_from (name : string) (skip : nat) (prev : option ascii) (s : string)
  : list string :=
  let here := match skip with
              | O => word_matches_here name prev s
              | S _ => false
              end in
  let found := if here then [name] else [] in
  match s with
  | EmptyString => found
  | String c rest =>
      found ++ findall_from name
                 (if here then Nat.pred (String.length name) else Nat.pred skip)
                 (Some c) rest
  end.

(** [re.findall(rf'\b{re.escape(name)}\b', code)]: the escaped name matches
    itself literally. *)
Definition re_findall_word (name code : string) : list string :=
  findall_from name 0 None code.

(** [re.match(r'^[a-z_][a-z0-9_]*$', name)]; [$] also matches just before a
    newline that ends the string. *)
Fixpoint all_chars (p : ascii -> bool) (s : string) : bool :=
  match s with
  | EmptyString => true
  | String c EmptyString => p c || Ascii.eqb c newline
  | String c rest => p c && all_chars p rest
  end.

Definition re_match_snake_case (name : string) : bool :=
  match name with
  | EmptyString => false
  | String c rest =>
      (is_lower c || is_underscore c)
      && all_chars (fun c => is_lower c || is_digit c || is_underscore c) rest
  end.

(** [re.match(r'^[A-Z][a-zA-Z0-9]*$', name)]. *)
Definition re_match_pascal_case (name : string) : bool :=
  match name with
  | EmptyString => false
  | String c rest =>
      is_upper c
      && all_chars (fun c => is_lower c || is_upper c || is_digit c) rest
  end.

(** [s.title()] on the two words the analyzer applies it to. *)
Definition title (s : string) : string :=
  match s with
  | EmptyString => EmptyString
  | String c rest =>
      String (if is_lower c then ascii_of_nat (nat_of_ascii c - 32) else c) rest
  end.


(** ** The syntax tree

    One type for every node class of Python's [ast].  The classes the checks
    test for carry the fields the checks read; every other class is [Other],
    with the child nodes [ast.iter_child_nodes] yields for it, in that
    order.  [AsyncFunctionDef], the class of an [async def], is not a
    subclass of [FunctionDef]: it is one of the classes [Other] stands
    for. *)

Scheme All for list.
Scheme All for option.

Inductive constant : Type :=
| CStr (s : string)          (* a [str] value *)
| CNotStr.                   (* a number, [bytes], [bool], [None] or [...] *)

Record alias : Type := mk_alias {
  alias_name : string;
  asname : option string
}.

Inductive node : Type :=
| Module (body : list node)
| FunctionDef (lineno : Z) (end_lineno : option Z) (name : string)
    (args : node) (body decorator_list : list node) (returns : option node)
    (type_params : list node)
| ClassDef (lineno : Z) (name : string)
    (bases keywords body decorator_list type_params : list node)
| If (lineno : Z) (test : node) (body orelse : list node)
| Import (lineno : Z) (names : list alias)
| ImportFrom (lineno : Z) (names : list alias)
| Expr (value : node)
| Constant (value : constant)
| BoolOp (op : node) (values : list node)
| And
| Or
| Alias (a : alias)
| Other (children : list node).

Definition opt_list {A : Type} (x : option A) : list A :=
  match x with
  | Some a => [a]
  | None => []
  end.

(** [ast.iter_child_nodes]: the nodes held by the fields of a node, in the
    order of [_fields]. *)
Definition iter_child_nodes (n : node) : list node :=
  match n with
  | Module body => body
  | FunctionDef _ _ _ args body decorator_list returns type_params =>
      args :: body ++ decorator_list ++ opt_list returns ++ type_params
  | ClassDef _ _ bases keywords body decorator_list type_params =>
      bases ++ keywords ++ body ++ decorator_list ++ type_params
  | If _ test body orelse => test :: body ++ orelse
  | Import _ names => map Alias names
  | ImportFrom _ names => map Alias names
  | Expr value => [value]
  | Constant _ => []
  | BoolOp op values => op :: values
  | And => []
  | Or => []
  | Alias _ => []
  | Other children => children
  end.

(** The number of nodes of a tree. *)
Fixpoint size (n : node) : nat :=
  let sizes := fix sizes (l : list node) : nat :=
    match l with
    | [] => O
    | x :: l' => (size x + sizes l')%nat
    end in
  match n with
  | Module body => S (sizes body)
  | FunctionDef _ _ _ args body decorator_list returns type_params =>
      S (size args + sizes body + sizes decorator_list
         + match returns with Some r => size r | None => O end
         + sizes type_params)
  | ClassDef _ _ bases keywords body decorator_list type_params =>
      S (sizes bases + sizes keywords + sizes body + sizes decorator_list
         + sizes type_params)
  | If _ test body orelse => S (size test + sizes body + sizes orelse)
  | Import _ names => S (List.length names)
  | ImportFrom _ names => S (List.length names)
  | Expr value => S (size value)
  | Constant _ => 1%nat
  | BoolOp op values => S (size op + sizes values)
  | And => 1%nat
  | Or => 1%nat
  | Alias _ => 1%nat
  | Other children => S (sizes children)
  end.

Definition total_size (l : list node) : nat := list_sum (map size l).

(** [ast.walk]: the loop [while todo: node = todo.popleft();
    todo.extend(iter_child_nodes(node)); yield node].  One node is yielded per
    iteration, so the number of iterations is the number of nodes. *)
Fixpoint walk_queue (fuel : nat) (todo : list node) : list node :=
  match fuel, todo with
  | S fuel', n :: rest => n :: walk_queue fuel' (rest ++ iter_child_nodes n)
  | _, _ => []
  end.

Definition ast_walk (n : node) : list node := walk_queue (size n) [n].

(** Every node of a tree, parents first (depth first): the reference listing
    [ast_walk] is compared with. *)
Fixpoint nodes_of (n : node) : list node :=
  let all := fix all (l : list node) : list node :=
    match l with
    | [] => []
    | x :: l' => nodes_of x ++ all l'
    end in
  n :: match n with
       | Module body => all body
       | FunctionDef _ _ _ args body decorator_list returns type_params =>
           nodes_of args ++ all body ++ all decorator_list
           ++ match returns with Some r => nodes_of r | None => [] end
           ++ all type_params
       | ClassDef _ _ bases keywords body decorator_list type_params =>
           all bases ++ all keywords ++ all body ++ all decorator_list
           ++ all type_params
       | If _ test body orelse => nodes_of test ++ all body ++ all orelse
       | Import _ names => map Alias names
       | ImportFrom _ names => map Alias names
       | Expr value => nodes_of value
       | Constant _ => []
       | BoolOp op values => nodes_of op ++ all values
       | And => []
       | Or => []
       | Alias _ => []
       | Other children => all children
       end.

(** ** The analyzer *)

Record CodeIssue : Type := mk_CodeIssue {
  line_number : Z;
  issue_type : string;
  severity : string;
  message : string;
  suggestion : string
}.

Record PythonCodeAnalyzer : Type := mk_analyzer {
  issues : list CodeIssue
}.

(** [__init__]. *)
Definition new_analyzer : PythonCodeAnalyzer := {| issues := [] |}.

Inductive exception : Type :=
| KeyError (key : string).

Inductive outcome (A : Type) : Type :=
| Return (a : A) (self : PythonCodeAnalyzer)
| Raise (e : exception).
Arguments Return {A} a self.
Arguments Raise {A} e.

(** A method of the analyzer. *)
Definition method (A : Type) : Type := PythonCodeAnalyzer -> outcome A.

Definition ret {A : Type} (a : A) : method A := fun self => Return a self.

Definition bind {A B : Type} (m : method A) (k : A -> method B) : method B :=
  fun self =>
    match m self with
    | Return a self' => k a self'
    | Raise e => Raise e
    end.

Notation "x <- m ;; k" := (bind m (fun x => k))
  (at level 61, m at next level, right associativity).
Notation "m ;;; k" := (bind m (fun _ => k))
  (at level 61, right associativity).

(** [self.issues.append(issue)]. *)
Definition append (issue : CodeIssue) : method unit :=
  fun self => Return tt {| issues := issues self ++ [issue] |}.

(** [self.issues = []]. *)
Definition reset_issues : method unit :=
  fun _ => Return tt {| issues := [] |}.

Definition get_issues : method (list CodeIssue) :=
  fun self => Return (issues self) self.

Definition raise {A : Type} (e : exception) : method A := fun _ => Raise e.

(** [for x in l: body(x)]. *)
Fixpoint for_each {A : Type} (l : list A) (body : A -> method unit) : method unit :=
  match l with
  | [] => ret tt
  | x :: l' => body x ;;; for_each l' body
  end.

(** *** [_check_function_length] *)

Definition function_length_issue (severity suggestion : string)
    (lineno func_length : Z) (name : string) : CodeIssue :=
  {| line_number := lineno;
     issue_type := "function_length";
     severity := severity;
     message := ("Function '" ++ name ++ "' is " ++ str_of_int func_length
                 ++ " lines long")%string;
     suggestion := suggestion |}.

Definition _check_function_length (tree : node) (code : string) : method unit :=
  let lines := split newline code in
  for_each (ast_walk tree) (fun n =>
    match n with
    | FunctionDef lineno end_lineno name _ _ _ _ _ =>
        let end_line := or_else end_lineno lineno in
        let func_length := end_line - lineno + 1 in
        if func_length >? 50 then
          append (function_length_issue "warning"
                    "Consider breaking this function into smaller functions"
                    lineno func_length name)
        else if func_length >? 20 then
          append (function_length_issue "info"
                    "Consider if this function could be simplified"
                    lineno func_length name)
        else ret tt
    | _ => ret tt
    end).

(** *** [_check_missing_docstrings] *)

(** [node.body and isinstance(node.body[0], ast.Expr) and
    isinstance(node.body[0].value, ast.Constant) and
    isinstance(node.body[0].value.value, str)] *)
Definition has_docstring (body : list node) : bool :=
  match body with
  | Expr (Constant (CStr _)) :: _ => true
  | _ => false
  end.

Definition missing_docstring_issue (node_type : string) (lineno : Z)
    (name : string) : CodeIssue :=
  {| line_number := lineno;
     issue_type := "missing_docstring";
     severity := "info";
     message := (title node_type ++ " '" ++ name ++ "' is missing a docstring")%string;
     suggestion := ("Add a docstring to document what this " ++ node_type
                    ++ " does")%string |}.

Definition _check_missing_docstrings (tree : node) : method unit :=
  for_each (ast_walk tree) (fun n =>
    match n with
    | FunctionDef lineno _ name _ body _ _ _ =>
        if negb (has_docstring body)
        then append (missing_docstring_issue "function" lineno name)
        else ret tt
    | ClassDef lineno name _ _ body _ _ =>
        if negb (has_docstring body)
        then append (missing_docstring_issue "class" lineno name)
        else ret tt
    | _ => ret tt
    end).

(** *** [_check_unused_imports] *)

(** The first loop: [imports]. *)
Definition imported_names (n : node) : list string :=
  match n with
  | Import _ names =>
      map (fun a => List.hd EmptyString (split dot (alias_name a))) names
  | ImportFrom _ names => map alias_name names
  | _ => []
  end.

Definition collect_imports (tree : node) : list string :=
  flat_map imported_names (ast_walk tree).

(** [x in names] for a list of strings. *)
Definition str_in (x : string) (names : list string) : bool :=
  existsb (String.eqb x) names.

Definition unused_import_issue (lineno : Z) (import_name : string) : CodeIssue :=
  {| line_number := lineno;
     issue_type := "unused_import";
     severity := "info";
     message := ("Import '" ++ import_name ++ "' appears to be unused")%string;
     suggestion := "Remove unused imports to keep code clean" |}.

(** The inner loop, which ends at its [break]. *)
Fixpoint report_import (import_name : string) (nodes : list node) : method unit :=
  match nodes with
  | [] => ret tt
  | n :: rest =>
      match n with
      | Import lineno names | ImportFrom lineno names =>
          if str_in import_name (map alias_name names)
          then append (unused_import_issue lineno import_name)
          else report_import import_name rest
      | _ => report_import import_name rest
      end
  end.

Definition _check_unused_imports (tree : node) (code : string) : method unit :=
  let imports := collect_imports tree in
  for_each imports (fun import_name =>
    let matches := re_findall_word import_name code in
    if (List.length matches <=? 1)%nat
    then report_import import_name (ast_walk tree)
    else ret tt).

(** *** [_check_complex_conditions] *)

Definition is_and_or (n : node) : bool :=
  match n with
  | And | Or => true
  | _ => false
  end.

Definition complex_condition_issue (lineno : Z) : CodeIssue :=
  {| line_number := lineno;
     issue_type := "complex_condition";
     severity := "warning";
     message := "Complex conditional statement with multiple boolean operators";
     suggestion := "Consider breaking this into multiple conditions or using a helper function" |}.

Definition _check_complex_conditions (tree : node) : method unit :=
  for_each (ast_walk tree) (fun n =>
    match n with
    | If lineno test _ _ =>
        let bool_ops := List.length (filter is_and_or (ast_walk test)) in
        if (3 <? bool_ops)%nat
        then append (complex_condition_issue lineno)
        else ret tt
    | _ => ret tt
    end).

(** *** [_check_naming_conventions] *)

Definition naming_issue (lineno : Z) (message suggestion : string) : CodeIssue :=
  {| line_number := lineno;
     issue_type := "naming_convention";
     severity := "info";
     message := message;
     suggestion := suggestion |}.

Definition _check_naming_conventions (tree : node) : method unit :=
  for_each (ast_walk tree) (fun n =>
    match n with
    | FunctionDef lineno _ name _ _ _ _ _ =>
        if negb (re_match_snake_case name) && negb (startswith "__" name)
        then append (naming_issue lineno
               ("Function '" ++ name ++ "' doesn't follow snake_case convention")%string
               "Use snake_case for function names (e.g., my_function)")
        else ret tt
    | ClassDef lineno name _ _ _ _ _ =>
        if negb (re_match_pascal_case name)
        then append (naming_issue lineno
               ("Class '" ++ name ++ "' doesn't follow PascalCase convention")%string
               "Use PascalCase for class names (e.g., MyClass)")
        else ret tt
    | _ => ret tt
    end).

(** *** [_calculate_quality_score] *)

(** [severity_weights[key]]; a key outside the dictionary raises. *)
Definition severity_weights (key : string) : option Z :=
  if String.eqb key "error" then Some (-20)
  else if String.eqb key "warning" then Some (-10)
  else if String.eqb key "info" then Some (-5)
  else None.

(** [sum(severity_weights[issue.severity] for issue in self.issues)]: the
    first issue with an unknown severity raises [KeyError]. *)
Fixpoint sum_weights (l : list CodeIssue) (acc : Z) : exception + Z :=
  match l with
  | [] => inr acc
  | issue :: l' =>
      match severity_weights (severity issue) with
      | Some w => sum_weights l' (acc + w)
      | None => inl (KeyError (severity issue))
      end
  end.

(** [int.__round__(ndigits)]: an [int] is its own rounding to any
    non-negative number of decimals; a negative [ndigits] rounds to a multiple
    of a power of ten, ties to the even quotient. *)
Definition round_int (x ndigits : Z) : Z :=
  if 0 <=? ndigits then x
  else
    let pow := 10 ^ (- ndigits) in
    let q := x / pow in
    let r := x mod pow in
    if (2 * r >? pow) || ((2 * r =? pow) && Z.odd q) then x - r + pow
    else x - r.

(** The local [score] of [_calculate_quality_score], before [round]. *)
Definition unrounded_score (total_deduction : Z) : Z :=
  Z.max 0 (100 + total_deduction).

Definition _calculate_quality_score : method number :=
  l <- get_issues ;;
  match l with
  | [] => ret (Float 100)
  | _ :: _ =>
      match sum_weights l 0 with
      | inl e => raise e
      | inr total_deduction =>
          let score := unrounded_score total_deduction in
          ret (Int (round_int score 1))
      end
  end.

(** *** [analyze_code] *)

Module Result.

(** One entry of the ["issues"] list of the returned dictionary. *)
Record issue : Type := mk_issue {
  line : Z;
  type : string;
  severity : string;
  message : string;
  suggestion : string
}.

(** The dictionary [analyze_code] returns. *)
Record t : Type := mk {
  quality_score : number;
  issues : list issue;
  total_issues : nat;
  lines_of_code : nat
}.

End Result.

Definition issue_dict (issue : CodeIssue) : Result.issue :=
  {| Result.line := line_number issue;
     Result.type := issue_type issue;
     Result.severity := severity issue;
     Result.message := message issue;
     Result.suggestion := suggestion issue |}.

(** What [ast.parse] does with a source text: a tree, or a [SyntaxError]
    with its [lineno] and [msg]. *)
Inductive parse_outcome : Type :=
| Parsed (tree : node)
| SyntaxError (lineno : option Z) (msg : string).

Definition syntax_error_result (lineno : option Z) (msg code : string) : Result.t :=
  {| Result.quality_score := Int 0;
     Result.issues :=
       [ {| Result.line := or_else lineno 1;
            Result.type := "syntax_error";
            Result.severity := "error";
            Result.message := ("Syntax error: " ++ msg)%string;
            Result.suggestion := "Fix the syntax error before analysis can continue" |} ];
     Result.total_issues := 1;
     Result.lines_of_code := List.length (split newline code) |}.

Section Analyzer.

Variable ast_parse : string -> parse_outcome.

Definition analyze_code (code : string) : method Result.t :=
  reset_issues ;;;
  match ast_parse code with
  | Parsed tree =>
      _check_function_length tree code ;;;
      _check_missing_docstrings tree ;;;
      _check_unused_imports tree code ;;;
      _check_complex_conditions tree ;;;
      _check_naming_conventions tree ;;;
      quality_score <- _calculate_quality_score ;;
      l <- get_issues ;;
      ret {| Result.quality_score := quality_score;
             Result.issues := map issue_dict l;
             Result.total_issues := List.length l;
             Result.lines_of_code := List.length (split newline code) |}
  | SyntaxError lineno msg =>
      ret (syntax_error_result lineno msg code)
  end.

End Analyzer.

(** ** Sample sources with the trees [ast.parse] builds for them *)

Definition name_expr : node := Other [Other []].   (* [Name(id, ctx=Load())] *)
Definition pass_stmt : node := Other [].           (* [Pass()] *)
Definition no_arguments : node := Other [].        (* [arguments()] of [f()] *)

(** [if a and b and c and d and e:] with the body [pass] on line 2. *)
Definition chain4_source : string :=
  ("if a and b and c and d and e:" ++ String newline "    pass")%string.
Definition chain4_tree : node :=
  Module [If 1 (BoolOp And [name_expr; name_expr; name_expr; name_expr; name_expr])
             [pass_stmt] []].

(** [import os.path] *)
Definition dotted_import_source : string := "import os.path".
Definition dotted_import_tree : node :=
  Module [Import 1 [mk_alias "os.path" None]].

(** [import os] *)
Definition plain_import_source : string := "import os".
Definition plain_import_tree : node :=
  Module [Import 1 [mk_alias "os" None]].

(** [def f():] followed by 59 lines [pass]: a function of 60 lines. *)
Fixpoint pass_lines (n : nat) : string :=
  match n with
  | O => EmptyString
  | S n' => (String newline "    pass" ++ pass_lines n')%string
  end.
Definition long_function_source : string := ("def f():" ++ pass_lines 59)%string.
Definition long_function_tree : node :=
  Module [FunctionDef 1 (Some 60) "f" no_arguments (repeat pass_stmt 59) [] None []].

(** The truncated source [def f(]. *)
Definition truncated_source : string := "def f(".

(** A parser that knows the sample sources. *)
Definition sample_parse (code : string) : parse_outcome :=
  if String.eqb code chain4_source then Parsed chain4_tree
  else if String.eqb code dotted_import_source then Parsed dotted_import_tree
  else if String.eqb code plain_import_source then Parsed plain_import_tree
  else if String.eqb code long_function_source then Parsed long_function_tree
  else if String.eqb code truncated_source
       then SyntaxError (Some 1) "'(' was never closed"
  else SyntaxError None "source outside the samples".

(** ** What one node contributes to each check

    The body of each loop over [ast.walk(tree)], read as the list of issues
    it appends for one node. *)

Definition function_length_report (n : node) : list CodeIssue :=
  match n with
  | FunctionDef lineno end_lineno name _ _ _ _ _ =>
      let func_length := or_else end_lineno lineno - lineno + 1 in
      if func_length >? 50 then
        [function_length_issue "warning"
           "Consider breaking this function into smaller functions"
           lineno func_length name]
      else if func_length >? 20 then
        [function_length_issue "info"
           "Consider if this function could be simplified"
           lineno func_length name]
      else []
  | _ => []
  end.

Definition missing_docstring_report (n : node) : list CodeIssue :=
  match n with
  | FunctionDef lineno _ name _ body _ _ _ =>
      if negb (has_docstring body)
      then [missing_docstring_issue "function" lineno name] else []
  | ClassDef lineno name _ _ body _ _ =>
      if negb (has_docstring body)
      then [missing_docstring_issue "class" lineno name] else []
  | _ => []
  end.

(** The issue the inner loop of [_check_unused_imports] appends, if any. *)
Fixpoint first_import_report (import_name : string) (nodes : list node)
  : list CodeIssue :=
  match nodes with
  | [] => []
  | n :: rest =>
      match n with
      | Import lineno names | ImportFrom lineno names =>
          if str_in import_name (map alias_name names)
          then [unused_import_issue lineno import_name]
          else first_import_report import_name rest
      | _ => first_import_report import_name rest
      end
  end.

Definition unused_import_report (tree : node) (code import_name : string)
  : list CodeIssue :=
  if (List.length (re_findall_word import_name code) <=? 1)%nat
  then first_import_report import_name (ast_walk tree)
  else [].

Definition count_bool_ops (test : node) : nat :=
  List.length (filter is_and_or (ast_walk test)).

Definition complex_condition_report (n : node) : list CodeIssue :=
  match n with
  | If lineno test _ _ =>
      if (3 <? count_bool_ops test)%nat
      then [complex_condition_issue lineno] else []
  | _ => []
  end.

Definition naming_report (n : node) : list CodeIssue :=
  match n with
  | FunctionDef lineno _ name _ _ _ _ _ =>
      if negb (re_match_snake_case name) && negb (startswith "__" name)
      then [naming_issue lineno
              ("Function '" ++ name ++ "' doesn't follow snake_case convention")%string
              "Use snake_case for function names (e.g., my_function)"]
      else []
  | ClassDef lineno name _ _ _ _ _ =>
      if negb (re_match_pascal_case name)
      then [naming_issue lineno
              ("Class '" ++ name ++ "' doesn't follow PascalCase convention")%string
              "Use PascalCase for class names (e.g., MyClass)"]
      else []
  | _ => []
  end.

(** The issues of a successful analysis, check after check. *)
Definition all_reports (tree : node) (code : string) : list CodeIssue :=
  flat_map function_length_report (ast_walk tree)
  ++ flat_map missing_docstring_report (ast_walk tree)
  ++ flat_map (unused_import_report tree code) (collect_imports tree)
  ++ flat_map complex_condition_report (ast_walk tree)
  ++ flat_map naming_report (ast_walk tree).

(** ** The words of the specification *)

(** Per-issue deduction by severity. *)
Definition deduction (severity : string) : Z :=
  if String.eqb severity "error" then -20
  else if String.eqb severity "warning" then -10
  else if String.eqb severity "info" then -5
  else 0.

Definition total_deduction (l : list Result.issue) : Z :=
  fold_right (fun i acc => deduction (Result.severity i) + acc) 0 l.

(** Rounding a rational to the nearest integer, ties to even. *)
Definition round_half_even (q : Q) : Z :=
  let f := Qfloor q in
  match ((q - inject_Z f) ?= (1 # 2))%Q with
  | Lt => f
  | Gt => f + 1
  | Eq => if Z.even f then f else f + 1
  end.

(** Rounding to one decimal place. *)
Definition round_to_one_decimal (q : Q) : Q :=
  (inject_Z (round_half_even (q * 10)) / 10)%Q.

(** The number of newline characters of a text. *)
Fixpoint count_newlines (s : string) : nat :=
  match s with
  | EmptyString => O
  | String c rest =>
      ((if Ascii.eqb c newline then 1 else 0) + count_newlines rest)%nat
  end.

(** Line span of a function: end line minus start line plus 1, and 1 when
    there is no end line. *)
Definition span (lineno : Z) (end_lineno : option Z) : Z :=
  match end_lineno with
  | Some e => e - lineno + 1
  | None => 1
  end.

Definition has_type (t : string) (i : Result.issue) : bool :=
  String.eqb (Result.type i) t.

(** ** Predicates and results used by the statements *)

Definition known_severity (i : CodeIssue) : Prop :=
  severity i = "warning" \/ severity i = "info".

Definition has_issue_type (t : string) (i : CodeIssue) : Prop :=
  issue_type i = t.

(** [appends m l]: from any state, [m] returns after appending [l] to
    [self.issues]. *)
Definition appends (m : method unit) (l : list CodeIssue) : Prop :=
  forall self, m self = Return tt {| issues := issues self ++ l |}.

(** The score of a list of issues, in the words of the specification. *)
Definition score_of_issues (l : list Result.issue) : number :=
  match l with
  | [] => Float 100
  | _ :: _ => Int (Z.max 0 (100 + total_deduction l))
  end.

(** The result of a successful analysis of [code], parsed to [tree]. *)
Definition success_result (tree : node) (code : string) : Result.t :=
  {| Result.quality_score := score_of_issues (map issue_dict (all_reports tree code));
     Result.issues := map issue_dict (all_reports tree code);
     Result.total_issues := List.length (all_reports tree code);
     Result.lines_of_code := List.length (split newline code) |}.

(** The issues of one severity in a result. *)
Definition count_severity (severity : string) (l : list Result.issue) : nat :=
  List.length (filter (fun i => String.eqb (Result.severity i) severity) l).

(** The severity of the issue is a key of [severity_weights]. *)
Definition weighted (i : CodeIssue) : Prop :=
  severity_weights (severity i) <> None.

(** [sep.join(pieces)] for a one-character separator. *)
Fixpoint join (sep : ascii) (pieces : list string) : string :=
  match pieces with
  | [] => EmptyString
  | [piece] => piece
  | piece :: rest => (piece ++ String sep (join sep rest))%string
  end.

(** [c in s] for a character. *)
Definition contains (c : ascii) (s : string) : bool :=
  existsb (Ascii.eqb c) (list_ascii_of_string s).

Definition is_bool_op (n : node) : bool :=
  match n with
  | BoolOp _ _ => true
  | _ => false
  end.

(** As the parser builds trees: a [BoolOp] holds one operator node, its
    [op], and no other node holds one. *)
Definition ops_in_place (n : node) : Prop :=
  List.length (filter is_and_or (iter_child_nodes n))
  = if is_bool_op n then 1%nat else 0%nat.

(** The test [(a and b) or (c and d) or (e and f)]: four [BoolOp] nodes. *)
Definition nested_test : node :=
  BoolOp Or [BoolOp And [name_expr; name_expr];
             BoolOp And [name_expr; name_expr];
             BoolOp And [name_expr; name_expr]].

(** An import statement that lists [name] among its aliases. *)
Definition lists_name (name : string) (n : node) : Prop :=
  exists lineno names,
    (n = Import lineno names \/ n = ImportFrom lineno names)
    /\ In name (map alias_name names).

(** [from os import path] with nothing else. *)
Definition from_import_tree : node :=
  Module [ImportFrom 1 [mk_alias "path" None]].

(** ** The service of [backend/main.py] *)

(** The ASCII characters [str.isspace] accepts: tab to carriage return, the
    four separators 28 to 31, and the space. *)
Definition is_space (c : ascii) : bool :=
  let n := nat_of_ascii c in
  ((9 <=? n)%nat && (n <=? 13)%nat) || ((28 <=? n)%nat && (n <=? 32)%nat).

(** [s.lstrip()], [s.rstrip()] and [s.strip()]. *)
Fixpoint lstrip (s : string) : string :=
  match s with
  | EmptyString => EmptyString
  | String c rest => if is_space c then lstrip rest else s
  end.

Fixpoint rstrip (s : string) : string :=
  match s with
  | EmptyString => EmptyString
  | String c rest =>
      match rstrip rest with
      | EmptyString => if is_space c then EmptyString else String c EmptyString
      | kept => String c kept
      end
  end.

Definition strip (s : string) : string := rstrip (lstrip s).

Module CodeSubmission.
Record t : Type := mk {
  code : string;
  filename : string
}.
End CodeSubmission.

Module AnalysisResponse.
Record t : Type := mk {
  quality_score : number;
  issues : list Result.issue;
  total_issues : nat;
  lines_of_code : nat;
  filename : string
}.
End AnalysisResponse.

(** A field declared [float] receives an [int] as the float of the same
    value. *)
Definition as_float (x : number) : number := Float (number_value x).

(** What the endpoint hands back to the framework. *)
Inductive reply : Type :=
| Response (body : AnalysisResponse.t)
| HTTPException (status_code : Z) (detail : string).

(** A request served, with the shared analyzer as the request leaves it.
    [Crashed] is the reply of the [except] clause: an [outcome] that raises
    does not record what the failed call left in the analyzer. *)
Inductive served : Type :=
| Served (r : reply) (analyzer : PythonCodeAnalyzer)
| Crashed (r : reply).

Section Service.

Variable ast_parse : string -> parse_outcome.

(** [str(e)]. *)
Variable str_of_exception : exception -> string.

(** The [/analyze] endpoint, on the module-level [analyzer]. *)
Definition analyze_endpoint (submission : CodeSubmission.t)
    (analyzer : PythonCodeAnalyzer) : served :=
  match strip (CodeSubmission.code submission) with
  | EmptyString =>
      Served (HTTPException 400 "Code cannot be empty") analyzer
  | String _ _ =>
      match analyze_code ast_parse (CodeSubmission.code submission) analyzer with
      | Return analysis_result analyzer' =>
          Served
            (Response
               {| AnalysisResponse.quality_score :=
                    as_float (Result.quality_score analysis_result);
                  AnalysisResponse.issues := Result.issues analysis_result;
                  AnalysisResponse.total_issues := Result.total_issues analysis_result;
                  AnalysisResponse.lines_of_code := Result.lines_of_code analysis_result;
                  AnalysisResponse.filename := CodeSubmission.filename submission |})
            analyzer'
      | Raise e =>
          Crashed (HTTPException 500
                     ("Analysis failed: " ++ str_of_exception e)%string)
      end
  end.

End Service.

(** ** Methods that only append *)

Lemma appends_ret : appends (ret tt) [].
Proof.
  intros [l]. unfold ret. simpl. now rewrite app_nil_r.
Qed.

Lemma appends_append (i : CodeIssue) : appends (append i) [i].
Proof. intros self. reflexivity. Qed.

Lemma appends_seq (m k : method unit) (l1 l2 : list CodeIssue) :
  appends m l1 -> appends k l2 -> appends (m ;;; k) (l1 ++ l2).
Proof.
  intros Hm Hk self. unfold bind. rewrite Hm, Hk. simpl.
  now rewrite app_assoc.
Qed.

Lemma appends_for_each {A : Type} (body : A -> method unit)
    (report : A -> list CodeIssue) (l : list A) :
  (forall x, appends (body x) (report x)) ->
  appends (for_each l body) (flat_map report l).
Proof.
  intros Hbody. induction l as [|x l IH]; simpl.
  - apply appends_ret.
  - apply appends_seq; [apply Hbody | exact IH].
Qed.

Create HintDb appends.
#[local] Hint Resolve appends_ret appends_append : appends.

Lemma _check_function_length_appends (tree : node) (code : string) :
  appends (_check_function_length tree code)
          (flat_map function_length_report (ast_walk tree)).
Proof.
  apply appends_for_each. intros n. destruct n; simpl; auto with appends.
  destruct (_ >? 50); [|destruct (_ >? 20)]; auto with appends.
Qed.

Lemma _check_missing_docstrings_appends (tree : node) :
  appends (_check_missing_docstrings tree)
          (flat_map missing_docstring_report (ast_walk tree)).
Proof.
  apply appends_for_each. intros n. destruct n; simpl; auto with appends;
    destruct (negb _); auto with appends.
Qed.

Lemma report_import_appends (import_name : string) (nodes : list node) :
  appends (report_import import_name nodes)
          (first_import_report import_name nodes).
Proof.
  induction nodes as [|n rest IH]; simpl; auto with appends.
  destruct n; auto; destruct (str_in _ _); auto with appends.
Qed.

Lemma _check_unused_imports_appends (tree : node) (code : string) :
  appends (_check_unused_imports tree code)
          (flat_map (unused_import_report tree code) (collect_imports tree)).
Proof.
  apply appends_for_each. intros import_name. unfold unused_import_report.
  destruct (_ <=? _)%nat; auto with appends. apply report_import_appends.
Qed.

Lemma _check_complex_conditions_appends (tree : node) :
  appends (_check_complex_conditions tree)
          (flat_map complex_condition_report (ast_walk tree)).
Proof.
  apply appends_for_each. intros n. destruct n; simpl; auto with appends.
  unfold count_bool_ops. destruct (_ <? _)%nat; auto with appends.
Qed.

Lemma _check_naming_conventions_appends (tree : node) :
  appends (_check_naming_conventions tree)
          (flat_map naming_report (ast_walk tree)).
Proof.
  apply appends_for_each. intros n. destruct n; simpl; auto with appends;
    destruct (_ : bool); auto with appends.
Qed.

(** ** The issues of a successful analysis *)


Ltac case_report :=
  repeat match goal with
         | |- Forall _ [] => constructor
         | |- Forall _ (_ :: _) => constructor
         | |- Forall _ (if ?b then _ else _) => destruct b
         | |- Forall _ (match ?n with _ => _ end) => destruct n
         | |- known_severity _ => unfold known_severity; simpl; auto
         | |- has_issue_type _ _ => reflexivity
         end.

Lemma first_import_report_all (P : CodeIssue -> Prop) (import_name : string)
    (nodes : list node) :
  (forall lineno, P (unused_import_issue lineno import_name)) ->
  Forall P (first_import_report import_name nodes).
Proof.
  intros HP. induction nodes as [|n rest IH]; simpl; [constructor|].
  destruct n; auto; destruct (str_in _ _); auto.
Qed.

Lemma function_length_report_type (n : node) :
  Forall (has_issue_type "function_length") (function_length_report n).
Proof. unfold function_length_report; simpl. case_report. Qed.

Lemma missing_docstring_report_type (n : node) :
  Forall (has_issue_type "missing_docstring") (missing_docstring_report n).
Proof. unfold missing_docstring_report. case_report. Qed.

Lemma unused_import_report_type (tree : node) (code import_name : string) :
  Forall (has_issue_type "unused_import") (unused_import_report tree code import_name).
Proof.
  unfold unused_import_report. destruct (_ <=? _)%nat; [|constructor].
  apply first_import_report_all. reflexivity.
Qed.

Lemma complex_condition_report_type (n : node) :
  Forall (has_issue_type "complex_condition") (complex_condition_report n).
Proof. unfold complex_condition_report. case_report. Qed.

Lemma naming_report_type (n : node) :
  Forall (has_issue_type "naming_convention") (naming_report n).
Proof. unfold naming_report. case_report. Qed.

Lemma function_length_report_severity (n : node) :
  Forall known_severity (function_length_report n).
Proof. unfold function_length_report; simpl. case_report. Qed.

Lemma missing_docstring_report_severity (n : node) :
  Forall known_severity (missing_docstring_report n).
Proof. unfold missing_docstring_report. case_report. Qed.

Lemma unused_import_report_severity (tree : node) (code import_name : string) :
  Forall known_severity (unused_import_report tree code import_name).
Proof.
  unfold unused_import_report. destruct (_ <=? _)%nat; [|constructor].
  apply first_import_report_all. intros; right; reflexivity.
Qed.

Lemma complex_condition_report_severity (n : node) :
  Forall known_severity (complex_condition_report n).
Proof. unfold complex_condition_report. case_report. Qed.

Lemma naming_report_severity (n : node) :
  Forall known_severity (naming_report n).
Proof. unfold naming_report. case_report. Qed.

Lemma Forall_flat_map_each {A B : Type} (P : B -> Prop) (f : A -> list B)
    (l : list A) :
  (forall x, Forall P (f x)) -> Forall P (flat_map f l).
Proof.
  intros H. induction l as [|x l IH]; simpl; [constructor|].
  apply Forall_app. split; [apply H | exact IH].
Qed.

Lemma all_reports_severity (tree : node) (code : string) :
  Forall known_severity (all_reports tree code).
Proof.
  unfold all_reports.
  repeat (apply Forall_app; split); apply Forall_flat_map_each; intros x.
  - apply function_length_report_severity.
  - apply missing_docstring_report_severity.
  - apply unused_import_report_severity.
  - apply complex_condition_report_severity.
  - apply naming_report_severity.
Qed.

Lemma bind_appends {B : Type} (m : method unit) (l : list CodeIssue)
    (k : unit -> method B) (self : PythonCodeAnalyzer) :
  appends m l ->
  bind m k self = k tt {| issues := issues self ++ l |}.
Proof.
  intros Hm. unfold bind. now rewrite Hm.
Qed.

(** ** The score *)

Lemma sum_weights_known (l : list CodeIssue) (acc : Z) :
  Forall known_severity l ->
  sum_weights l acc = inr (acc + total_deduction (map issue_dict l)).
Proof.
  intros H. revert acc. induction H as [|i l Hi _ IH]; intros acc.
  - simpl. now rewrite Z.add_0_r.
  - change (total_deduction (map issue_dict (i :: l)))
      with (deduction (severity i) + total_deduction (map issue_dict l)).
    cbn [sum_weights]. destruct Hi as [E|E]; rewrite E.
    + change (severity_weights "warning") with (Some (-10)).
      change (deduction "warning") with (-10).
      cbv iota. rewrite IH. f_equal. lia.
    + change (severity_weights "info") with (Some (-5)).
      change (deduction "info") with (-5).
      cbv iota. rewrite IH. f_equal. lia.
Qed.

Lemma total_deduction_known (l : list CodeIssue) :
  Forall known_severity l ->
  (5 | total_deduction (map issue_dict l))
  /\ total_deduction (map issue_dict l) <= -5 * Z.of_nat (List.length l).
Proof.
  induction 1 as [|i l Hi _ [[k Hk] IH]].
  - split; [exists 0; reflexivity | simpl; lia].
  - change (total_deduction (map issue_dict (i :: l)))
      with (deduction (severity i) + total_deduction (map issue_dict l)).
    replace (Z.of_nat (List.length (i :: l)))
      with (Z.of_nat (List.length l) + 1) by (simpl List.length; lia).
    destruct Hi as [E|E]; rewrite E.
    + change (deduction "warning") with (-10).
      split; [exists (k - 2); lia | lia].
    + change (deduction "info") with (-5).
      split; [exists (k - 1); lia | lia].
Qed.


Lemma _calculate_quality_score_known (l : list CodeIssue) :
  Forall known_severity l ->
  _calculate_quality_score {| issues := l |}
  = Return (score_of_issues (map issue_dict l)) {| issues := l |}.
Proof.
  intros H. unfold _calculate_quality_score, bind, get_issues. simpl.
  destruct l as [|i l]; [reflexivity|].
  rewrite (sum_weights_known _ 0 H). reflexivity.
Qed.


(** ** [ast.walk] yields every node of the tree once *)

Lemma sizes_total (l : list node) :
  (fix sizes (l : list node) : nat :=
     match l with
     | [] => O
     | x :: l' => (size x + sizes l')%nat
     end) l = total_size l.
Proof.
  induction l as [|x l IH]; [reflexivity|].
  unfold total_size in *. simpl. now rewrite IH.
Qed.

Lemma total_size_app (l1 l2 : list node) :
  total_size (l1 ++ l2) = (total_size l1 + total_size l2)%nat.
Proof.
  unfold total_size. now rewrite map_app, list_sum_app.
Qed.

Lemma total_size_aliases (names : list alias) :
  total_size (map Alias names) = List.length names.
Proof.
  induction names as [|a names IH]; [reflexivity|].
  unfold total_size in *. simpl. now rewrite IH.
Qed.

Lemma total_size_cons (x : node) (l : list node) :
  total_size (x :: l) = (size x + total_size l)%nat.
Proof. reflexivity. Qed.

Lemma size_children (n : node) :
  size n = S (total_size (iter_child_nodes n)).
Proof.
  destruct n; cbn [size iter_child_nodes]; rewrite ?sizes_total;
    rewrite ?total_size_cons, ?total_size_app, ?total_size_aliases;
    repeat match goal with
           | o : option node |- _ => destruct o
           end;
    cbn [opt_list]; rewrite ?total_size_cons;
    change (total_size []) with O; lia.
Qed.

Lemma all_nodes_flat_map (l : list node) :
  (fix all (l : list node) : list node :=
     match l with
     | [] => []
     | x :: l' => nodes_of x ++ all l'
     end) l = flat_map nodes_of l.
Proof.
  induction l as [|x l IH]; [reflexivity|]. simpl. now rewrite IH.
Qed.

Lemma flat_map_nodes_aliases (names : list alias) :
  flat_map nodes_of (map Alias names) = map Alias names.
Proof.
  induction names as [|a names IH]; [reflexivity|]. simpl. now rewrite IH.
Qed.

Lemma nodes_of_children (n : node) :
  nodes_of n = n :: flat_map nodes_of (iter_child_nodes n).
Proof.
  destruct n; cbn [nodes_of iter_child_nodes]; rewrite ?all_nodes_flat_map;
    repeat match goal with
           | o : option node |- _ => destruct o
           end;
    cbn [opt_list flat_map]; rewrite ?flat_map_app, ?flat_map_nodes_aliases;
    cbn [flat_map]; rewrite ?app_nil_r; reflexivity.
Qed.

(** With enough iterations the queue is emptied, and what was yielded is a
    rearrangement of the nodes of the queued trees. *)
Lemma walk_queue_permutation (fuel : nat) (todo : list node) :
  (total_size todo <= fuel)%nat ->
  Permutation (walk_queue fuel todo) (flat_map nodes_of todo).
Proof.
  revert todo. induction fuel as [|fuel IH]; intros todo Hfuel.
  - destruct todo as [|n rest]; [constructor|].
    unfold total_size in Hfuel. simpl in Hfuel.
    rewrite size_children in Hfuel. lia.
  - destruct todo as [|n rest]; [constructor|].
    cbn [walk_queue flat_map]. rewrite nodes_of_children.
    cbn [app]. constructor.
    rewrite (IH (rest ++ iter_child_nodes n)).
    + rewrite flat_map_app. apply Permutation_app_comm.
    + unfold total_size in Hfuel. simpl in Hfuel.
      rewrite size_children in Hfuel.
      rewrite total_size_app. fold (total_size rest) in Hfuel. lia.
Qed.

Lemma ast_walk_permutation (n : node) :
  Permutation (ast_walk n) (nodes_of n).
Proof.
  unfold ast_walk.
  rewrite (walk_queue_permutation (size n) [n]).
  - simpl. now rewrite app_nil_r.
  - unfold total_size. simpl. lia.
Qed.

(** More iterations than nodes change nothing: the loop has ended. *)
Lemma walk_queue_enough (fuel extra : nat) (todo : list node) :
  (total_size todo <= fuel)%nat ->
  walk_queue (fuel + extra) todo = walk_queue fuel todo.
Proof.
  revert todo. induction fuel as [|fuel IH]; intros todo Hfuel.
  - destruct todo as [|n rest]; [now destruct extra|].
    unfold total_size in Hfuel. simpl in Hfuel.
    rewrite size_children in Hfuel. lia.
  - destruct todo as [|n rest]; [reflexivity|].
    cbn [walk_queue Nat.add]. f_equal. apply IH.
    unfold total_size in Hfuel. simpl in Hfuel.
    rewrite size_children in Hfuel.
    rewrite total_size_app. fold (total_size rest) in Hfuel. lia.
Qed.

Lemma ast_walk_first (n : node) :
  exists rest, ast_walk n = n :: rest.
Proof.
  unfold ast_walk. rewrite size_children. simpl. eauto.
Qed.

(** ** Auxiliary facts on lines, rounding and issue kinds *)

Lemma split_length (s : string) :
  List.length (split newline s) = S (count_newlines s).
Proof.
  induction s as [|c rest IH]; [reflexivity|].
  cbn [split count_newlines]. destruct (Ascii.eqb c newline).
  - cbn [List.length]. now rewrite IH.
  - destruct (split newline rest) as [|piece pieces]; [discriminate IH|].
    cbn [List.length] in *. lia.
Qed.

Lemma round_to_one_decimal_int (z : Z) :
  (round_to_one_decimal (inject_Z z) == inject_Z z)%Q.
Proof.
  unfold round_to_one_decimal, round_half_even.
  unfold Qfloor, Qcompare, Qminus, Qplus, Qopp, Qmult, inject_Z.
  cbn [Qnum Qden Pos.mul]. rewrite Z.div_1_r.
  match goal with
  | |- context [?a ?= ?b] => destruct (Z.compare_spec a b) as [H|H|H]
  end; try (exfalso; cbn in H; lia).
  unfold Qeq, Qdiv, Qinv, Qmult. cbn [Qnum Qden]. lia.
Qed.

Lemma round_int_one_decimal (x : Z) : round_int x 1 = x.
Proof. reflexivity. Qed.

Lemma filter_all {A : Type} (p : A -> bool) (l : list A) :
  Forall (fun x => p x = true) l -> filter p l = l.
Proof.
  induction 1 as [|x l Hx _ IH]; simpl; [reflexivity|].
  now rewrite Hx, IH.
Qed.

Lemma filter_none {A : Type} (p : A -> bool) (l : list A) :
  Forall (fun x => p x = false) l -> filter p l = [].
Proof.
  induction 1 as [|x l Hx _ IH]; simpl; [reflexivity|].
  now rewrite Hx, IH.
Qed.

Lemma filter_map_swap {A B : Type} (p : B -> bool) (f : A -> B) (l : list A) :
  filter p (map f l) = map f (filter (fun x => p (f x)) l).
Proof.
  induction l as [|x l IH]; simpl; [reflexivity|].
  rewrite IH. now destruct (p (f x)).
Qed.

(** Issues of kind [t'] seen through a filter for kind [t]. *)
Lemma filter_reports_type {A : Type} (t t' : string) (report : A -> list CodeIssue)
    (l : list A) :
  (forall x, Forall (has_issue_type t') (report x)) ->
  filter (fun i => has_type t (issue_dict i)) (flat_map report l)
  = if String.eqb t' t then flat_map report l else [].
Proof.
  intros Htype.
  assert (Forall (has_issue_type t') (flat_map report l)) as Hall
    by now apply Forall_flat_map_each.
  destruct (String.eqb t' t) eqn:E.
  - apply filter_all. eapply Forall_impl; [|exact Hall].
    intros i Hi. unfold has_type. cbn [issue_dict Result.type].
    unfold has_issue_type in Hi. now rewrite Hi.
  - apply filter_none. eapply Forall_impl; [|exact Hall].
    intros i Hi. unfold has_type. cbn [issue_dict Result.type].
    unfold has_issue_type in Hi. now rewrite Hi.
Qed.

(** The issues of one kind in the result of a successful analysis. *)
Lemma filter_all_reports (t : string) (tree : node) (code : string) :
  filter (has_type t) (map issue_dict (all_reports tree code))
  = map issue_dict
      ((if String.eqb "function_length" t
        then flat_map function_length_report (ast_walk tree) else [])
       ++ (if String.eqb "missing_docstring" t
           then flat_map missing_docstring_report (ast_walk tree) else [])
       ++ (if String.eqb "unused_import" t
           then flat_map (unused_import_report tree code) (collect_imports tree)
           else [])
       ++ (if String.eqb "complex_condition" t
           then flat_map complex_condition_report (ast_walk tree) else [])
       ++ (if String.eqb "naming_convention" t
           then flat_map naming_report (ast_walk tree) else [])).
Proof.
  rewrite filter_map_swap. f_equal. unfold all_reports.
  rewrite !filter_app.
  rewrite (filter_reports_type t _ _ _ function_length_report_type).
  rewrite (filter_reports_type t _ _ _ missing_docstring_report_type).
  rewrite (filter_reports_type t _ _ _ (unused_import_report_type tree code)).
  rewrite (filter_reports_type t _ _ _ complex_condition_report_type).
  rewrite (filter_reports_type t _ _ _ naming_report_type).
  reflexivity.
Qed.

(** ** [analyze_code] *)

Section Analysis.

Variable ast_parse : string -> parse_outcome.

Lemma analyze_code_parsed (code : string) (tree : node)
    (self : PythonCodeAnalyzer) :
  ast_parse code = Parsed tree ->
  analyze_code ast_parse code self
  = Return (success_result tree code) {| issues := all_reports tree code |}.
Proof.
  intros Hparse. unfold analyze_code. rewrite Hparse.
  unfold bind at 1. unfold reset_issues.
  rewrite (bind_appends _ _ _ _ (_check_function_length_appends tree code)).
  rewrite (bind_appends _ _ _ _ (_check_missing_docstrings_appends tree)).
  rewrite (bind_appends _ _ _ _ (_check_unused_imports_appends tree code)).
  rewrite (bind_appends _ _ _ _ (_check_complex_conditions_appends tree)).
  rewrite (bind_appends _ _ _ _ (_check_naming_conventions_appends tree)).
  cbn [issues app]. rewrite <- !app_assoc. fold (all_reports tree code).
  unfold bind at 1.
  rewrite (_calculate_quality_score_known _ (all_reports_severity tree code)).
  reflexivity.
Qed.

Lemma analyze_code_syntax_error (code : string) (lineno : option Z)
    (msg : string) (self : PythonCodeAnalyzer) :
  ast_parse code = SyntaxError lineno msg ->
  analyze_code ast_parse code self
  = Return (syntax_error_result lineno msg code) {| issues := [] |}.
Proof.
  intros Hparse. unfold analyze_code. rewrite Hparse. reflexivity.
Qed.


(** C3: when parsing fails, [analyze_code] returns exactly one issue, of
    kind [syntax_error] and severity [error], with [quality_score] 0 and
    [total_issues] 1.  No check has run: the issue list of the instance is
    still empty.  The line of the issue is the line the failure reports, and
    1 when the failure carries none (or carries 0, which is no line of a
    text). *)
Theorem syntax_error_short_circuits (code : string) (lineno : option Z)
    (msg : string) (self : PythonCodeAnalyzer) :
  ast_parse code = SyntaxError lineno msg ->
  exists r self' issue,
    analyze_code ast_parse code self = Return r self'
    /\ Result.issues r = [issue]
    /\ Result.type issue = "syntax_error"
    /\ Result.severity issue = "error"
    /\ Result.quality_score r = Int 0
    /\ Result.total_issues r = 1%nat
    /\ issues self' = []
    /\ (forall n, lineno = Some n -> n <> 0 -> Result.line issue = n)
    /\ (lineno = None \/ lineno = Some 0 -> Result.line issue = 1).
Proof.
  intros Hparse.
  eexists _, _, _. rewrite (analyze_code_syntax_error _ _ _ _ Hparse).
  split; [reflexivity|]. cbn.
  repeat (split; [reflexivity|]). split.
  - intros n -> Hn. cbn. destruct (Z.eqb_spec n 0); [contradiction|reflexivity].
  - intros [->| ->]; reflexivity.
Qed.

(** C4: after a successful analysis the quality score is
    [max(0, 100 + sum of the deductions of the issues)] rounded to one
    decimal place, the deductions being -20, -10 and -5 for [error],
    [warning] and [info]; it is the function [score_of_issues] of the issue
    list and of nothing else. *)
Theorem quality_score_formula (code : string) (tree : node)
    (self : PythonCodeAnalyzer) :
  ast_parse code = Parsed tree ->
  exists r self',
    analyze_code ast_parse code self = Return r self'
    /\ (number_value (Result.quality_score r)
        == round_to_one_decimal
             (inject_Z (Z.max 0 (100 + total_deduction (Result.issues r)))))%Q
    /\ Result.quality_score r = score_of_issues (Result.issues r)
    /\ deduction "error" = -20
    /\ deduction "warning" = -10
    /\ deduction "info" = -5.
Proof.
  intros Hparse. eexists _, _.
  rewrite (analyze_code_parsed _ _ _ Hparse).
  split; [reflexivity|]. cbn [success_result Result.quality_score Result.issues].
  repeat split. rewrite round_to_one_decimal_int.
  destruct (all_reports tree code) as [|i l]; reflexivity.
Qed.

(** C6: for every result of [analyze_code], after a successful parse or a
    failed one, the issue list is empty if and only if the quality score
    equals 100.0. *)
Theorem no_issues_iff_perfect_score (code : string) (self : PythonCodeAnalyzer) :
  exists r self',
    analyze_code ast_parse code self = Return r self'
    /\ (Result.issues r = []
        <-> number_eq (Result.quality_score r) (Float 100) = true).
Proof.
  destruct (ast_parse code) as [tree|lineno msg] eqn:Hparse.
  - eexists _, _. rewrite (analyze_code_parsed _ _ _ Hparse).
    split; [reflexivity|].
    cbn [success_result Result.quality_score Result.issues].
    pose proof (total_deduction_known _ (all_reports_severity tree code))
      as [_ Hle].
    destruct (all_reports tree code) as [|i l]; [now split|].
    split; [discriminate|]. intros Heq. exfalso.
    unfold number_eq in Heq. apply Qeq_bool_iff in Heq.
    cbn [score_of_issues map number_value] in Heq.
    unfold Qeq, inject_Z in Heq. cbn [Qnum Qden] in Heq.
    change (map issue_dict (i :: l)) with (issue_dict i :: map issue_dict l) in Hle.
    cbn [List.length] in Hle. lia.
  - eexists _, _. rewrite (analyze_code_syntax_error _ _ _ _ Hparse).
    split; [reflexivity|]. cbn. split; discriminate.
Qed.

(** C7: two calls of [analyze_code] on one instance with the same source
    return the same result.  The result does not depend on the state the
    instance is in, so nothing of an earlier call is retained. *)
Theorem analyze_code_twice (code : string) (self : PythonCodeAnalyzer) :
  exists r self1 self2,
    analyze_code ast_parse code self = Return r self1
    /\ analyze_code ast_parse code self1 = Return r self2
    /\ (forall other, exists self3,
          analyze_code ast_parse code other = Return r self3).
Proof.
  destruct (ast_parse code) as [tree|lineno msg] eqn:Hparse.
  - eexists _, _, _.
    rewrite !(analyze_code_parsed _ _ _ Hparse).
    repeat split. intros other. rewrite (analyze_code_parsed _ _ _ Hparse). eauto.
  - eexists _, _, _.
    rewrite !(analyze_code_syntax_error _ _ _ _ Hparse).
    repeat split. intros other.
    rewrite (analyze_code_syntax_error _ _ _ _ Hparse). eauto.
Qed.

(** C8: in every result of [analyze_code], on the success branch and on the
    parse-failure branch, [total_issues] is the length of [issues]. *)
Theorem total_issues_is_length (code : string) (self : PythonCodeAnalyzer) :
  exists r self',
    analyze_code ast_parse code self = Return r self'
    /\ Result.total_issues r = List.length (Result.issues r).
Proof.
  destruct (ast_parse code) as [tree|lineno msg] eqn:Hparse.
  - eexists _, _. rewrite (analyze_code_parsed _ _ _ Hparse).
    split; [reflexivity|]. cbn. now rewrite length_map.
  - eexists _, _. rewrite (analyze_code_syntax_error _ _ _ _ Hparse).
    split; reflexivity.
Qed.

(** C9: after a successful analysis the score before rounding is an integer
    multiple of 5 between 0 and 100, and rounding it to one decimal place
    leaves it unchanged. *)
Theorem unrounded_score_multiple_of_five (code : string) (tree : node)
    (self : PythonCodeAnalyzer) :
  ast_parse code = Parsed tree ->
  exists r self' score,
    analyze_code ast_parse code self = Return r self'
    /\ score = unrounded_score (total_deduction (Result.issues r))
    /\ (5 | score)
    /\ 0 <= score <= 100
    /\ round_int score 1 = score
    /\ (round_to_one_decimal (inject_Z score) == inject_Z score)%Q
    /\ (number_value (Result.quality_score r) == inject_Z score)%Q.
Proof.
  intros Hparse. eexists _, _, _.
  rewrite (analyze_code_parsed _ _ _ Hparse).
  split; [reflexivity|]. split; [reflexivity|].
  cbn [success_result Result.quality_score Result.issues].
  pose proof (total_deduction_known _ (all_reports_severity tree code))
    as [[k Hk] Hle].
  unfold unrounded_score.
  assert (total_deduction (map issue_dict (all_reports tree code)) <= 0) as Hneg by lia.
  repeat split.
  - destruct (Z.max_spec 0 (100 + total_deduction (map issue_dict (all_reports tree code))))
      as [[_ ->]|[_ ->]].
    + exists (20 + k). lia.
    + exists 0. reflexivity.
  - lia.
  - lia.
  - apply round_to_one_decimal_int.
  - destruct (all_reports tree code) as [|i l]; reflexivity.
Qed.

(** C10: for every source text, the empty one included, [lines_of_code] is
    the number of newline characters of the text plus 1, hence at least 1,
    on the success branch and on the parse-failure branch alike. *)
Theorem lines_of_code_counts_newlines (code : string) (self : PythonCodeAnalyzer) :
  exists r self',
    analyze_code ast_parse code self = Return r self'
    /\ Result.lines_of_code r = (count_newlines code + 1)%nat
    /\ (1 <= Result.lines_of_code r)%nat.
Proof.
  destruct (ast_parse code) as [tree|lineno msg] eqn:Hparse.
  - eexists _, _. rewrite (analyze_code_parsed _ _ _ Hparse).
    split; [reflexivity|]. cbn. rewrite split_length. lia.
  - eexists _, _. rewrite (analyze_code_syntax_error _ _ _ _ Hparse).
    split; [reflexivity|]. cbn. rewrite split_length. lia.
Qed.

(** C5: after a successful analysis the [function_length] issues of the
    result are what the function definitions of the tree contribute, node by
    node, every node being visited once.  With [span] the end line minus the
    start line plus 1 (1 without an end line), a function definition
    contributes one [warning] when [span > 50], one [info] when
    [20 < span <= 50] and nothing when [span <= 20]; the message gives the
    name of the function and the span.  Any other node contributes nothing. *)
Theorem function_length_issues (code : string) (tree : node)
    (self : PythonCodeAnalyzer) :
  ast_parse code = Parsed tree ->
  exists r self',
    analyze_code ast_parse code self = Return r self'
    /\ filter (has_type "function_length") (Result.issues r)
       = map issue_dict (flat_map function_length_report (ast_walk tree))
    /\ Permutation (ast_walk tree) (nodes_of tree)
    /\ (forall lineno end_lineno name args body decorator_list returns type_params,
          end_lineno <> Some 0 ->
          let n := FunctionDef lineno end_lineno name args body decorator_list
                     returns type_params in
          let s := span lineno end_lineno in
          let text := ("Function '" ++ name ++ "' is " ++ str_of_int s
                       ++ " lines long")%string in
          (50 < s ->
           exists i, function_length_report n = [i]
                     /\ line_number i = lineno
                     /\ issue_type i = "function_length"
                     /\ severity i = "warning"
                     /\ message i = text)
          /\ (20 < s <= 50 ->
              exists i, function_length_report n = [i]
                        /\ line_number i = lineno
                        /\ issue_type i = "function_length"
                        /\ severity i = "info"
                        /\ message i = text)
          /\ (s <= 20 -> function_length_report n = []))
    /\ (forall n,
          (forall lineno end_lineno name args body decorator_list returns type_params,
              n <> FunctionDef lineno end_lineno name args body decorator_list
                     returns type_params) ->
          function_length_report n = []).
Proof.
  intros Hparse. eexists _, _.
  rewrite (analyze_code_parsed _ _ _ Hparse).
  split; [reflexivity|]. cbn [success_result Result.issues].
  split; [|split; [apply ast_walk_permutation|split]].
  - rewrite filter_all_reports. cbn [String.eqb Ascii.eqb Bool.eqb].
    cbn [app]. now rewrite app_nil_r.
  - intros lineno end_lineno name args body decorator_list returns type_params
      Hend.
    cbv zeta. set (s := span lineno end_lineno).
    assert (or_else end_lineno lineno - lineno + 1 = s) as Hspan.
    { subst s. destruct end_lineno as [e|]; cbn [or_else span]; [|lia].
      destruct (Z.eqb_spec e 0); [congruence|reflexivity]. }
    cbn [function_length_report]. rewrite Hspan.
    repeat split.
    + intros Hs. destruct (Z.gtb_spec s 50); [|lia].
      eexists. split; [reflexivity|]. cbn. auto.
    + intros Hs. destruct (Z.gtb_spec s 50); [lia|].
      destruct (Z.gtb_spec s 20); [|lia].
      eexists. split; [reflexivity|]. cbn. auto.
    + intros Hs. destruct (Z.gtb_spec s 50); [lia|].
      destruct (Z.gtb_spec s 20); [lia|reflexivity].
  - intros n Hn. destruct n; try reflexivity. exfalso. eapply Hn. reflexivity.
Qed.

(** X14: The [complex_condition] issues of a successful analysis: one for each
    [If] of the tree whose test holds more than three [And]/[Or] nodes. *)
Lemma complex_condition_issues (code : string) (tree : node)
    (self : PythonCodeAnalyzer) :
  ast_parse code = Parsed tree ->
  exists r self',
    analyze_code ast_parse code self = Return r self'
    /\ filter (has_type "complex_condition") (Result.issues r)
       = map issue_dict (flat_map complex_condition_report (ast_walk tree)).
Proof.
  intros Hparse. eexists _, _.
  rewrite (analyze_code_parsed _ _ _ Hparse).
  split; [reflexivity|]. cbn [success_result Result.issues].
  rewrite filter_all_reports. cbn [String.eqb Ascii.eqb Bool.eqb].
  cbn [app]. now rewrite app_nil_r.
Qed.

(** X21: The [unused_import] issues of a successful analysis: for each collected
    name with at most one whole-word match, the issue of the first import
    node that lists the name itself among its aliases, if there is one. *)
Lemma unused_import_issues (code : string) (tree : node)
    (self : PythonCodeAnalyzer) :
  ast_parse code = Parsed tree ->
  exists r self',
    analyze_code ast_parse code self = Return r self'
    /\ filter (has_type "unused_import") (Result.issues r)
       = map issue_dict
           (flat_map (unused_import_report tree code) (collect_imports tree)).
Proof.
  intros Hparse. eexists _, _.
  rewrite (analyze_code_parsed _ _ _ Hparse).
  split; [reflexivity|]. cbn [success_result Result.issues].
  rewrite filter_all_reports. cbn [String.eqb Ascii.eqb Bool.eqb].
  cbn [app]. now rewrite app_nil_r.
Qed.

End Analysis.

(** ** Boolean operators in a test *)

Lemma count_bool_ops_nodes (test : node) :
  count_bool_ops test = List.length (filter is_and_or (nodes_of test)).
Proof.
  unfold count_bool_ops. apply Permutation_length.
  (* the filter of a rearrangement is a rearrangement of the filter *)
  generalize (ast_walk_permutation test).
  generalize (ast_walk test) (nodes_of test).
  induction 1 as [|x l l' _ IH|x y l|l l' l'' _ IH1 _ IH2]; simpl.
  - constructor.
  - destruct (is_and_or x); [constructor|]; exact IH.
  - destruct (is_and_or x), (is_and_or y);
      try apply Permutation_refl. apply perm_swap.
  - eapply Permutation_trans; eassumption.
Qed.

(** A chain [v1 and v2 and ... and vn] is one [BoolOp] node with one
    operator node, whatever the number of operands: when no operand holds a
    boolean operator, the count is 1. *)
Lemma count_bool_ops_chain (op : node) (values : list node) :
  is_and_or op = true ->
  Forall (fun v => filter is_and_or (nodes_of v) = []) values ->
  count_bool_ops (BoolOp op values) = 1%nat.
Proof.
  intros Hop Hvalues. rewrite count_bool_ops_nodes, nodes_of_children.
  cbn [iter_child_nodes flat_map filter is_and_or].
  rewrite filter_app.
  assert (filter is_and_or (nodes_of op) = [op]) as ->.
  { destruct op; try discriminate Hop; reflexivity. }
  assert (filter is_and_or (flat_map nodes_of values) = []) as ->.
  { induction Hvalues as [|v values Hv _ IH]; [reflexivity|].
    cbn [flat_map]. now rewrite filter_app, Hv, IH. }
  reflexivity.
Qed.

(** ** The analysis of the sample sources *)

(** C1: the test of [if a and b and c and d and e:] chains four [and]
    operators, but the tree holds one [And] node for the whole chain: the
    count is 1 and the analysis reports no [complex_condition]. *)
Theorem chain_of_four_operators_not_reported :
  sample_parse chain4_source = Parsed chain4_tree
  /\ count_bool_ops
       (BoolOp And [name_expr; name_expr; name_expr; name_expr; name_expr])
     = 1%nat
  /\ analyze_code sample_parse chain4_source new_analyzer
     = Return {| Result.quality_score := Float 100;
                 Result.issues := [];
                 Result.total_issues := 0;
                 Result.lines_of_code := 2 |}
              {| issues := [] |}.
Proof. repeat split. Qed.

(** C2: in [import os.path] the name collected is [os], it has one
    whole-word match in the text, and the search for its import statement
    compares [os] with the alias name [os.path]: nothing is reported. *)
Theorem dotted_import_not_reported :
  sample_parse dotted_import_source = Parsed dotted_import_tree
  /\ collect_imports dotted_import_tree = ["os"]
  /\ List.length (re_findall_word "os" dotted_import_source) = 1%nat
  /\ analyze_code sample_parse dotted_import_source new_analyzer
     = Return {| Result.quality_score := Float 100;
                 Result.issues := [];
                 Result.total_issues := 0;
                 Result.lines_of_code := 1 |}
              {| issues := [] |}.
Proof. repeat split. Qed.

(** [import os] alone: the name is reported at the line of the import. *)
Example plain_import_reported :
  analyze_code sample_parse plain_import_source new_analyzer
  = Return {| Result.quality_score := Int 95;
              Result.issues :=
                [ {| Result.line := 1;
                     Result.type := "unused_import";
                     Result.severity := "info";
                     Result.message := "Import 'os' appears to be unused";
                     Result.suggestion := "Remove unused imports to keep code clean" |} ];
              Result.total_issues := 1;
              Result.lines_of_code := 1 |}
           {| issues := [unused_import_issue 1 "os"] |}.
Proof. reflexivity. Qed.

(** A function of 60 lines without a docstring: two issues, score 85. *)
Example long_function_reported :
  analyze_code sample_parse long_function_source new_analyzer
  = Return {| Result.quality_score := Int 85;
              Result.issues :=
                [ {| Result.line := 1;
                     Result.type := "function_length";
                     Result.severity := "warning";
                     Result.message := "Function 'f' is 60 lines long";
                     Result.suggestion :=
                       "Consider breaking this function into smaller functions" |};
                  {| Result.line := 1;
                     Result.type := "missing_docstring";
                     Result.severity := "info";
                     Result.message := "Function 'f' is missing a docstring";
                     Result.suggestion :=
                       "Add a docstring to document what this function does" |} ];
              Result.total_issues := 2;
              Result.lines_of_code := 60 |}
           {| issues := all_reports long_function_tree long_function_source |}.
Proof. vm_compute. reflexivity. Qed.

(** ** The theorems at the sample sources *)

Lemma syntax_error_short_circuits_witness :
  sample_parse truncated_source = SyntaxError (Some 1) "'(' was never closed"
  /\ exists r self' issue,
       analyze_code sample_parse truncated_source new_analyzer = Return r self'
       /\ Result.issues r = [issue]
       /\ Result.type issue = "syntax_error"
       /\ Result.severity issue = "error"
       /\ Result.quality_score r = Int 0
       /\ Result.total_issues r = 1%nat
       /\ issues self' = []
       /\ (forall n, Some 1 = Some n -> n <> 0 -> Result.line issue = n)
       /\ (Some 1 = None \/ Some 1 = Some 0 -> Result.line issue = 1).
Proof.
  split; [reflexivity|].
  apply (syntax_error_short_circuits sample_parse truncated_source (Some 1)
           "'(' was never closed" new_analyzer).
  reflexivity.
Defined.

Lemma quality_score_formula_witness :
  sample_parse long_function_source = Parsed long_function_tree
  /\ exists r self',
       analyze_code sample_parse long_function_source new_analyzer = Return r self'
       /\ (number_value (Result.quality_score r)
           == round_to_one_decimal
                (inject_Z (Z.max 0 (100 + total_deduction (Result.issues r)))))%Q
       /\ Result.quality_score r = score_of_issues (Result.issues r)
       /\ deduction "error" = -20
       /\ deduction "warning" = -10
       /\ deduction "info" = -5.
Proof.
  split; [vm_compute; reflexivity|].
  apply (quality_score_formula sample_parse long_function_source
           long_function_tree new_analyzer).
  vm_compute; reflexivity.
Defined.

Lemma function_length_issues_witness :
  sample_parse long_function_source = Parsed long_function_tree
  /\ exists r self',
       analyze_code sample_parse long_function_source new_analyzer = Return r self'
       /\ filter (has_type "function_length") (Result.issues r)
          = map issue_dict
              (flat_map function_length_report (ast_walk long_function_tree))
       /\ Permutation (ast_walk long_function_tree) (nodes_of long_function_tree)
       /\ (forall lineno end_lineno name args body decorator_list returns type_params,
             end_lineno <> Some 0 ->
             let n := FunctionDef lineno end_lineno name args body decorator_list
                        returns type_params in
             let s := span lineno end_lineno in
             let text := ("Function '" ++ name ++ "' is " ++ str_of_int s
                          ++ " lines long")%string in
             (50 < s ->
              exists i, function_length_report n = [i]
                        /\ line_number i = lineno
                        /\ issue_type i = "function_length"
                        /\ severity i = "warning"
                        /\ message i = text)
             /\ (20 < s <= 50 ->
                 exists i, function_length_report n = [i]
                           /\ line_number i = lineno
                           /\ issue_type i = "function_length"
                           /\ severity i = "info"
                           /\ message i = text)
             /\ (s <= 20 -> function_length_report n = []))
       /\ (forall n,
             (forall lineno end_lineno name args body decorator_list returns type_params,
                 n <> FunctionDef lineno end_lineno name args body decorator_list
                        returns type_params) ->
             function_length_report n = []).
Proof.
  split; [vm_compute; reflexivity|].
  apply (function_length_issues sample_parse long_function_source
           long_function_tree new_analyzer).
  vm_compute; reflexivity.
Defined.

Lemma unrounded_score_multiple_of_five_witness :
  sample_parse long_function_source = Parsed long_function_tree
  /\ exists r self' score,
       analyze_code sample_parse long_function_source new_analyzer = Return r self'
       /\ score = unrounded_score (total_deduction (Result.issues r))
       /\ (5 | score)
       /\ 0 <= score <= 100
       /\ round_int score 1 = score
       /\ (round_to_one_decimal (inject_Z score) == inject_Z score)%Q
       /\ (number_value (Result.quality_score r) == inject_Z score)%Q.
Proof.
  split; [vm_compute; reflexivity|].
  apply (unrounded_score_multiple_of_five sample_parse long_function_source
           long_function_tree new_analyzer).
  vm_compute; reflexivity.
Defined.

(** ** The scoring method on any list of issues *)

Lemma severity_weights_deduction (key : string) (w : Z) :
  severity_weights key = Some w -> deduction key = w.
Proof.
  unfold severity_weights, deduction.
  destruct (String.eqb key "error"); [congruence|].
  destruct (String.eqb key "warning"); [congruence|].
  destruct (String.eqb key "info"); congruence.
Qed.

Lemma severity_weights_range (key : string) (w : Z) :
  severity_weights key = Some w -> -20 <= w <= -5.
Proof.
  unfold severity_weights.
  destruct (String.eqb key "error"); [intros [= <-]; lia|].
  destruct (String.eqb key "warning"); [intros [= <-]; lia|].
  destruct (String.eqb key "info"); [intros [= <-]; lia|discriminate].
Qed.

Lemma sum_weights_weighted (l : list CodeIssue) (acc : Z) :
  Forall weighted l ->
  sum_weights l acc = inr (acc + total_deduction (map issue_dict l)).
Proof.
  intros H. revert acc. induction H as [|i l Hi _ IH]; intros acc.
  - simpl. now rewrite Z.add_0_r.
  - change (total_deduction (map issue_dict (i :: l)))
      with (deduction (severity i) + total_deduction (map issue_dict l)).
    cbn [sum_weights]. unfold weighted in Hi.
    destruct (severity_weights (severity i)) as [w|] eqn:E; [|contradiction].
    rewrite (severity_weights_deduction _ _ E), IH. f_equal. lia.
Qed.

Lemma sum_weights_key_error (before after : list CodeIssue) (i : CodeIssue)
    (acc : Z) :
  Forall weighted before ->
  severity_weights (severity i) = None ->
  sum_weights (before ++ i :: after) acc = inl (KeyError (severity i)).
Proof.
  intros H Hi. revert acc. induction H as [|j l Hj _ IH]; intros acc.
  - cbn [app sum_weights]. now rewrite Hi.
  - cbn [app sum_weights]. unfold weighted in Hj.
    destruct (severity_weights (severity j)); [apply IH|contradiction].
Qed.

Lemma score_on_weighted (self : PythonCodeAnalyzer) :
  Forall weighted (issues self) ->
  _calculate_quality_score self
  = Return (match issues self with
            | [] => Float 100
            | _ :: _ =>
                Int (Z.max 0 (100 + total_deduction (map issue_dict (issues self))))
            end) self.
Proof.
  intros H. destruct self as [l]. cbn [issues] in *.
  unfold _calculate_quality_score, bind, get_issues. cbn [issues].
  destruct l as [|i l]; [reflexivity|].
  rewrite (sum_weights_weighted _ 0 H). reflexivity.
Qed.

(** X2: Whatever issues the instance holds, as long as every severity is one of
    [error], [warning] and [info]: the method returns 100.0 for no issue and
    [max(0, 100 + sum of the weights)] otherwise, and leaves the instance as
    it was. *)
Theorem quality_score_of_weighted_issues (self : PythonCodeAnalyzer) :
  Forall weighted (issues self) ->
  _calculate_quality_score self
  = Return (match issues self with
            | [] => Float 100
            | _ :: _ =>
                Int (Z.max 0 (100 + total_deduction (map issue_dict (issues self))))
            end) self.
Proof. apply score_on_weighted. Qed.

Lemma quality_score_of_weighted_issues_witness :
  Forall weighted
    (issues {| issues := [function_length_issue "error" "" 1 60 "f";
                          unused_import_issue 2 "os"] |})
  /\ _calculate_quality_score
       {| issues := [function_length_issue "error" "" 1 60 "f";
                     unused_import_issue 2 "os"] |}
     = Return (match issues {| issues := [function_length_issue "error" "" 1 60 "f";
                                          unused_import_issue 2 "os"] |} with
               | [] => Float 100
               | _ :: _ =>
                   Int (Z.max 0 (100 + total_deduction
                          (map issue_dict
                             (issues {| issues := [function_length_issue "error" "" 1 60 "f";
                                                   unused_import_issue 2 "os"] |}))))
               end)
         {| issues := [function_length_issue "error" "" 1 60 "f";
                       unused_import_issue 2 "os"] |}.
Proof.
  assert (Forall weighted
            [function_length_issue "error" "" 1 60 "f"; unused_import_issue 2 "os"])
    as H by (repeat constructor; discriminate).
  split; [exact H|].
  apply (quality_score_of_weighted_issues
           {| issues := [function_length_issue "error" "" 1 60 "f";
                         unused_import_issue 2 "os"] |}).
  exact H.
Defined.

(** X3: An issue whose severity is no key of [severity_weights] makes the method
    raise [KeyError] with that severity: the first such issue of the list. *)
Theorem quality_score_key_error (before after : list CodeIssue)
    (i : CodeIssue) :
  Forall weighted before ->
  severity_weights (severity i) = None ->
  _calculate_quality_score {| issues := before ++ i :: after |}
  = Raise (KeyError (severity i)).
Proof.
  intros H Hi. unfold _calculate_quality_score, bind, get_issues. cbn [issues].
  rewrite (sum_weights_key_error _ _ _ 0 H Hi).
  destruct before; reflexivity.
Qed.

Lemma quality_score_key_error_witness :
  Forall weighted [unused_import_issue 2 "os"]
  /\ severity_weights (severity (function_length_issue "critical" "" 1 60 "f")) = None
  /\ _calculate_quality_score
       {| issues := [unused_import_issue 2 "os"]
                    ++ function_length_issue "critical" "" 1 60 "f" :: [] |}
     = Raise (KeyError (severity (function_length_issue "critical" "" 1 60 "f"))).
Proof.
  assert (Forall weighted [unused_import_issue 2 "os"]) as H
    by (repeat constructor; discriminate).
  split; [exact H|]. split; [reflexivity|].
  apply (quality_score_key_error [unused_import_issue 2 "os"] []
           (function_length_issue "critical" "" 1 60 "f") H).
  reflexivity.
Defined.

(** X4: One more issue never raises the score: each weight is negative. *)
Theorem one_more_issue_lowers_score (l : list CodeIssue) (i : CodeIssue) :
  Forall weighted (l ++ [i]) ->
  exists before after,
    _calculate_quality_score {| issues := l |} = Return before {| issues := l |}
    /\ _calculate_quality_score {| issues := l ++ [i] |}
       = Return after {| issues := l ++ [i] |}
    /\ (number_value after <= number_value before)%Q
    /\ (number_value before <= 100)%Q
    /\ (0 <= number_value after)%Q.
Proof.
  intros H. pose proof H as Hl. apply Forall_app in Hl as [Hl Hi].
  eexists _, _.
  rewrite (score_on_weighted {| issues := l |} Hl).
  rewrite (score_on_weighted {| issues := l ++ [i] |} H).
  split; [reflexivity|]. split; [reflexivity|]. cbn [issues].
  assert (forall k, Forall weighted k -> total_deduction (map issue_dict k) <= 0)
    as Hneg.
  { induction 1 as [|j k Hj _ IH]; [simpl; lia|].
    change (total_deduction (map issue_dict (j :: k)))
      with (deduction (severity j) + total_deduction (map issue_dict k)).
    unfold weighted in Hj.
    destruct (severity_weights (severity j)) as [w|] eqn:E; [|contradiction].
    rewrite (severity_weights_deduction _ _ E).
    pose proof (severity_weights_range _ _ E). lia. }
  assert (total_deduction (map issue_dict (l ++ [i]))
          = total_deduction (map issue_dict l) + deduction (severity i)) as Happ.
  { clear. induction l as [|j l IH]; [simpl; lia|].
    change (total_deduction (map issue_dict ((j :: l) ++ [i])))
      with (deduction (severity j) + total_deduction (map issue_dict (l ++ [i]))).
    change (total_deduction (map issue_dict (j :: l)))
      with (deduction (severity j) + total_deduction (map issue_dict l)).
    lia. }
  assert (deduction (severity i) <= -5) as Hdi.
  { inversion Hi as [|? ? Hw _]; subst. unfold weighted in Hw.
    destruct (severity_weights (severity i)) as [w|] eqn:E; [|contradiction].
    rewrite (severity_weights_deduction _ _ E).
    pose proof (severity_weights_range _ _ E). lia. }
  pose proof (Hneg _ Hl) as Hl0.
  destruct (l ++ [i]) as [|j k] eqn:Ek; [destruct l; discriminate|].
  cbv iota. rewrite Happ. clear Ek.
  destruct l as [|j' l'].
  - cbn [number_value map total_deduction fold_right].
    unfold Qle, inject_Z. cbn [Qnum Qden]. split; [|split]; lia.
  - cbn [number_value].
    unfold Qle, inject_Z. cbn [Qnum Qden]. split; [|split]; lia.
Qed.

Lemma one_more_issue_lowers_score_witness :
  Forall weighted ([unused_import_issue 2 "os"] ++ [complex_condition_issue 3])
  /\ exists before after,
       _calculate_quality_score {| issues := [unused_import_issue 2 "os"] |}
       = Return before {| issues := [unused_import_issue 2 "os"] |}
       /\ _calculate_quality_score
            {| issues := [unused_import_issue 2 "os"] ++ [complex_condition_issue 3] |}
          = Return after
              {| issues := [unused_import_issue 2 "os"] ++ [complex_condition_issue 3] |}
       /\ (number_value after <= number_value before)%Q
       /\ (number_value before <= 100)%Q
       /\ (0 <= number_value after)%Q.
Proof.
  assert (Forall weighted
            ([unused_import_issue 2 "os"] ++ [complex_condition_issue 3])) as H
    by (repeat constructor; discriminate).
  split; [exact H|].
  apply (one_more_issue_lowers_score [unused_import_issue 2 "os"]
           (complex_condition_issue 3)).
  exact H.
Defined.

(** ** The checks side by side *)

(** X5: Each check returns without raising, keeps the issues the instance
    already holds and appends its own, which do not depend on what the
    instance holds: the checks can run in any state without disturbing one
    another. *)
Theorem checks_only_append (tree : node) (code : string) :
  exists function_length docstrings imports conditions naming,
    forall self,
      _check_function_length tree code self
      = Return tt {| issues := issues self ++ function_length |}
      /\ _check_missing_docstrings tree self
         = Return tt {| issues := issues self ++ docstrings |}
      /\ _check_unused_imports tree code self
         = Return tt {| issues := issues self ++ imports |}
      /\ _check_complex_conditions tree self
         = Return tt {| issues := issues self ++ conditions |}
      /\ _check_naming_conventions tree self
         = Return tt {| issues := issues self ++ naming |}.
Proof.
  eexists _, _, _, _, _. intros self.
  rewrite (_check_function_length_appends tree code self).
  rewrite (_check_missing_docstrings_appends tree self).
  rewrite (_check_unused_imports_appends tree code self).
  rewrite (_check_complex_conditions_appends tree self).
  rewrite (_check_naming_conventions_appends tree self).
  repeat split.
Qed.

Lemma map_type_repeat (t : string) (l : list CodeIssue) :
  Forall (has_issue_type t) l ->
  map Result.type (map issue_dict l) = repeat t (List.length l).
Proof.
  induction 1 as [|i l Hi _ IH]; [reflexivity|].
  cbn [map List.length repeat]. rewrite IH. f_equal. exact Hi.
Qed.

Lemma total_deduction_counts (l : list CodeIssue) :
  Forall known_severity l ->
  total_deduction (map issue_dict l)
  = - 10 * Z.of_nat (count_severity "warning" (map issue_dict l))
    - 5 * Z.of_nat (count_severity "info" (map issue_dict l))
  /\ (count_severity "warning" (map issue_dict l)
      + count_severity "info" (map issue_dict l))%nat = List.length l.
Proof.
  unfold count_severity.
  induction 1 as [|i l Hi _ [IH1 IH2]]; [split; reflexivity|].
  change (total_deduction (map issue_dict (i :: l)))
    with (deduction (severity i) + total_deduction (map issue_dict l)).
  cbn [map filter issue_dict Result.severity List.length].
  destruct Hi as [E|E]; rewrite E.
  - change (deduction "warning") with (-10).
    change ("warning" =? "warning")%string with true.
    change ("warning" =? "info")%string with false.
    cbn [List.length]. split; lia.
  - change (deduction "info") with (-5).
    change ("info" =? "warning")%string with false.
    change ("info" =? "info")%string with true.
    cbn [List.length]. split; lia.
Qed.

Section AnalysisFacts.

Variable ast_parse : string -> parse_outcome.

(** X6: The [missing_docstring] issues of a successful analysis: every function
    and class definition of the tree whose body does not begin with an
    expression statement holding a string constant contributes one [info]
    issue that names it; an empty body counts as undocumented. *)
Theorem missing_docstring_issues (code : string) (tree : node)
    (self : PythonCodeAnalyzer) :
  ast_parse code = Parsed tree ->
  exists r self',
    analyze_code ast_parse code self = Return r self'
    /\ filter (has_type "missing_docstring") (Result.issues r)
       = map issue_dict (flat_map missing_docstring_report (ast_walk tree))
    /\ (forall lineno end_lineno name args body decorator_list returns type_params,
          let n := FunctionDef lineno end_lineno name args body decorator_list
                     returns type_params in
          (forall doc rest, body = Expr (Constant (CStr doc)) :: rest ->
                            missing_docstring_report n = [])
          /\ ((forall doc rest, body <> Expr (Constant (CStr doc)) :: rest) ->
              missing_docstring_report n
              = [ {| line_number := lineno;
                     issue_type := "missing_docstring";
                     severity := "info";
                     message := ("Function '" ++ name
                                 ++ "' is missing a docstring")%string;
                     suggestion :=
                       "Add a docstring to document what this function does" |} ]))
    /\ (forall lineno name bases keywords body decorator_list type_params,
          let n := ClassDef lineno name bases keywords body decorator_list
                     type_params in
          (forall doc rest, body = Expr (Constant (CStr doc)) :: rest ->
                            missing_docstring_report n = [])
          /\ ((forall doc rest, body <> Expr (Constant (CStr doc)) :: rest) ->
              missing_docstring_report n
              = [ {| line_number := lineno;
                     issue_type := "missing_docstring";
                     severity := "info";
                     message := ("Class '" ++ name
                                 ++ "' is missing a docstring")%string;
                     suggestion :=
                       "Add a docstring to document what this class does" |} ])).
Proof.
  intros Hparse. eexists _, _.
  rewrite (analyze_code_parsed ast_parse _ _ _ Hparse).
  split; [reflexivity|]. cbn [success_result Result.issues].
  assert (forall body,
             (forall doc rest, body <> Expr (Constant (CStr doc)) :: rest) ->
             has_docstring body = false) as Hno.
  { intros body Hbody. destruct body as [|[] rest]; try reflexivity.
    destruct value as [| | | | | | |[doc|] | | | | |]; try reflexivity.
    exfalso. eapply Hbody. reflexivity. }
  split; [|split].
  - rewrite filter_all_reports. cbn [String.eqb Ascii.eqb Bool.eqb].
    cbn [app]. now rewrite app_nil_r.
  - intros; cbv zeta; split.
    + intros doc rest ->. reflexivity.
    + intros Hbody. cbn [missing_docstring_report]. now rewrite (Hno _ Hbody).
  - intros; cbv zeta; split.
    + intros doc rest ->. reflexivity.
    + intros Hbody. cbn [missing_docstring_report]. now rewrite (Hno _ Hbody).
Qed.

(** X7: The issues of a successful analysis come grouped by check, in the order
    the checks run: function length, docstrings, imports, conditions,
    naming. *)
Theorem issues_grouped_by_check (code : string) (tree : node)
    (self : PythonCodeAnalyzer) :
  ast_parse code = Parsed tree ->
  exists r self' a b c d e,
    analyze_code ast_parse code self = Return r self'
    /\ map Result.type (Result.issues r)
       = repeat "function_length" a ++ repeat "missing_docstring" b
         ++ repeat "unused_import" c ++ repeat "complex_condition" d
         ++ repeat "naming_convention" e
    /\ Result.total_issues r = (a + b + c + d + e)%nat.
Proof.
  intros Hparse. eexists _, _, _, _, _, _, _.
  rewrite (analyze_code_parsed ast_parse _ _ _ Hparse).
  split; [reflexivity|]. cbn [success_result Result.issues Result.total_issues].
  unfold all_reports. rewrite !map_app, !length_app.
  rewrite (map_type_repeat "function_length"),
    (map_type_repeat "missing_docstring"), (map_type_repeat "unused_import"),
    (map_type_repeat "complex_condition"), (map_type_repeat "naming_convention").
  - split; [reflexivity|]. lia.
  - apply Forall_flat_map_each, naming_report_type.
  - apply Forall_flat_map_each, complex_condition_report_type.
  - apply Forall_flat_map_each, unused_import_report_type.
  - apply Forall_flat_map_each, missing_docstring_report_type.
  - apply Forall_flat_map_each, function_length_report_type.
Qed.

(** X8: A successful analysis reports warnings and infos only: no issue of
    severity [error] and none of kind [syntax_error]. *)
Theorem successful_analysis_has_no_error (code : string) (tree : node)
    (self : PythonCodeAnalyzer) :
  ast_parse code = Parsed tree ->
  exists r self',
    analyze_code ast_parse code self = Return r self'
    /\ Forall (fun i => (Result.severity i = "warning"
                         \/ Result.severity i = "info")
                        /\ Result.type i <> "syntax_error")
         (Result.issues r).
Proof.
  intros Hparse. eexists _, _.
  rewrite (analyze_code_parsed ast_parse _ _ _ Hparse).
  split; [reflexivity|]. cbn [success_result Result.issues].
  apply Forall_map.
  assert (Forall (fun i => issue_type i <> "syntax_error") (all_reports tree code))
    as Htype.
  { unfold all_reports.
    repeat (apply Forall_app; split); apply Forall_flat_map_each; intros x;
      [ eapply Forall_impl; [|apply function_length_report_type]
      | eapply Forall_impl; [|apply missing_docstring_report_type]
      | eapply Forall_impl; [|apply unused_import_report_type]
      | eapply Forall_impl; [|apply complex_condition_report_type]
      | eapply Forall_impl; [|apply naming_report_type] ];
      intros i Hi; unfold has_issue_type in Hi; rewrite Hi; discriminate. }
  pose proof (all_reports_severity tree code) as Hsev.
  revert Htype Hsev. generalize (all_reports tree code).
  induction l as [|i l IH]; intros Ht Hs; [constructor|].
  inversion Ht; inversion Hs; subst. constructor; [split; assumption|auto].
Qed.

(** X9: The score of a successful analysis from the number of warnings and
    infos: 100 - 10 per warning - 5 per info, and 0 when that is negative;
    every issue is one or the other. *)
Theorem score_counts_warnings_and_infos (code : string) (tree : node)
    (self : PythonCodeAnalyzer) :
  ast_parse code = Parsed tree ->
  exists r self',
    analyze_code ast_parse code self = Return r self'
    /\ (number_value (Result.quality_score r)
        == inject_Z
             (Z.max 0 (100 - 10 * Z.of_nat (count_severity "warning" (Result.issues r))
                           - 5 * Z.of_nat (count_severity "info" (Result.issues r)))))%Q
    /\ (count_severity "warning" (Result.issues r)
        + count_severity "info" (Result.issues r))%nat = Result.total_issues r.
Proof.
  intros Hparse. eexists _, _.
  rewrite (analyze_code_parsed ast_parse _ _ _ Hparse).
  split; [reflexivity|].
  cbn [success_result Result.issues Result.total_issues Result.quality_score].
  pose proof (total_deduction_counts _ (all_reports_severity tree code))
    as [Htotal Hcount].
  split; [|exact Hcount].
  destruct (all_reports tree code) as [|i l] eqn:E; [reflexivity|].
  cbn [score_of_issues map number_value]. cbn [map] in Htotal.
  rewrite Htotal. apply inject_Z_injective. f_equal. lia.
Qed.

(** X10: Every result of [analyze_code] has a score between 0 and 100. *)
Theorem quality_score_bounds (code : string) (self : PythonCodeAnalyzer) :
  exists r self',
    analyze_code ast_parse code self = Return r self'
    /\ (0 <= number_value (Result.quality_score r) <= 100)%Q.
Proof.
  destruct (ast_parse code) as [tree|lineno msg] eqn:Hparse.
  - eexists _, _. rewrite (analyze_code_parsed ast_parse _ _ _ Hparse).
    split; [reflexivity|]. cbn [success_result Result.quality_score].
    pose proof (total_deduction_known _ (all_reports_severity tree code))
      as [_ Hle].
    destruct (all_reports tree code) as [|i l].
    + cbn. split; discriminate.
    + cbn [score_of_issues map number_value].
      unfold Qle, inject_Z. cbn [Qnum Qden]. cbn [map] in Hle.
      split; lia.
  - eexists _, _. rewrite (analyze_code_syntax_error ast_parse _ _ _ _ Hparse).
    split; [reflexivity|]. cbn. split; discriminate.
Qed.

(** X11: What a call leaves in the instance: after a successful analysis
    [self.issues] holds the issues of the result, field by field; after a
    parse failure it is empty, the syntax error being reported in the result
    only. *)
Theorem issues_left_in_instance (code : string) (self : PythonCodeAnalyzer) :
  exists r self',
    analyze_code ast_parse code self = Return r self'
    /\ match ast_parse code with
       | Parsed _ => Result.issues r = map issue_dict (issues self')
       | SyntaxError _ _ =>
           issues self' = [] /\ List.length (Result.issues r) = 1%nat
       end.
Proof.
  destruct (ast_parse code) as [tree|lineno msg] eqn:Hparse.
  - eexists _, _. rewrite (analyze_code_parsed ast_parse _ _ _ Hparse).
    split; reflexivity.
  - eexists _, _. rewrite (analyze_code_syntax_error ast_parse _ _ _ _ Hparse).
    split; [reflexivity|]. split; reflexivity.
Qed.

End AnalysisFacts.

(** ** The order of [ast.walk] *)

Lemma walk_queue_children (fuel : nat) (todo : list node) :
  (total_size todo <= fuel)%nat ->
  walk_queue fuel todo
  = todo ++ flat_map iter_child_nodes (walk_queue fuel todo).
Proof.
  revert todo. induction fuel as [|fuel IH]; intros todo Hfuel.
  - destruct todo as [|n rest]; [reflexivity|].
    rewrite total_size_cons, size_children in Hfuel. lia.
  - destruct todo as [|n rest]; [reflexivity|].
    cbn [walk_queue flat_map app]. f_equal.
    rewrite total_size_cons, size_children in Hfuel.
    rewrite (IH (rest ++ iter_child_nodes n)) at 1.
    + now rewrite <- !app_assoc.
    + rewrite total_size_app. lia.
Qed.

Lemma ast_walk_children (n : node) :
  ast_walk n = n :: flat_map iter_child_nodes (ast_walk n).
Proof.
  unfold ast_walk.
  rewrite (walk_queue_children (size n) [n]) at 1; [reflexivity|].
  rewrite total_size_cons. unfold total_size. simpl. lia.
Qed.

(** X12: The walk is breadth first: it yields the root, then the children of the
    nodes it yields, in the order it yields them; and it yields as many
    nodes as the tree has. *)
Theorem ast_walk_breadth_first (n : node) :
  ast_walk n = n :: flat_map iter_child_nodes (ast_walk n)
  /\ List.length (ast_walk n) = size n.
Proof.
  split; [apply ast_walk_children|].
  - rewrite (Permutation_length (ast_walk_permutation n)).
    assert (forall k m, (size m <= k)%nat -> List.length (nodes_of m) = size m)
      as Hsize.
    { induction k as [|k IH]; intros m Hm.
      - rewrite size_children in Hm. lia.
      - rewrite nodes_of_children, size_children. cbn [List.length]. f_equal.
        rewrite size_children in Hm.
        assert (total_size (iter_child_nodes m) <= k)%nat as Hk by lia.
        revert Hk. generalize (iter_child_nodes m). intros l.
        induction l as [|x l IHl]; intros Hk; [reflexivity|].
        rewrite total_size_cons in *. cbn [flat_map]. rewrite length_app.
        rewrite IH by lia. rewrite IHl by lia. reflexivity. }
    apply (Hsize (size n)). lia.
Qed.

(** The statements of a module come first, before anything nested in
    them. *)
Corollary ast_walk_module_statements_first (body : list node) :
  exists nested, ast_walk (Module body) = Module body :: body ++ nested.
Proof.
  pose proof (ast_walk_children (Module body)) as Heq.
  destruct (ast_walk_first (Module body)) as [rest Hrest].
  rewrite Hrest in Heq at 2. cbn [flat_map iter_child_nodes] in Heq.
  rewrite Heq. eauto.
Qed.

(** ** What [_check_complex_conditions] counts *)

Lemma count_filter_flat_map {A B : Type} (p : B -> bool) (q : A -> bool)
    (f : A -> list B) (l : list A) :
  Forall (fun x => List.length (filter p (f x)) = if q x then 1%nat else 0%nat) l ->
  List.length (filter p (flat_map f l)) = List.length (filter q l).
Proof.
  induction 1 as [|x l Hx _ IH]; [reflexivity|].
  cbn [flat_map filter]. rewrite filter_app, length_app, Hx, IH.
  now destruct (q x).
Qed.

Lemma filter_length_permutation {A : Type} (p : A -> bool) (l l' : list A) :
  Permutation l l' ->
  List.length (filter p l) = List.length (filter p l').
Proof.
  induction 1 as [|x l l' _ IH|x y l|l l' l'' _ IH1 _ IH2]; simpl.
  - reflexivity.
  - destruct (p x); simpl; congruence.
  - destruct (p x), (p y); reflexivity.
  - congruence.
Qed.

(** X13: In a tree as the parser builds it, the number the check compares with 3
    is the number of [BoolOp] nodes of the test, not the number of operators
    written: an [If] is reported when its test holds at least four [BoolOp]
    nodes. *)
Theorem bool_ops_counted_per_node (lineno : Z) (test : node)
    (body orelse : list node) :
  is_and_or test = false ->
  Forall ops_in_place (nodes_of test) ->
  count_bool_ops test = List.length (filter is_bool_op (nodes_of test))
  /\ complex_condition_report (If lineno test body orelse)
     = if (3 <? List.length (filter is_bool_op (nodes_of test)))%nat
       then [complex_condition_issue lineno] else [].
Proof.
  intros Hroot Hplace.
  assert (count_bool_ops test = List.length (filter is_bool_op (nodes_of test)))
    as Hcount.
  { unfold count_bool_ops.
    rewrite (ast_walk_children test) at 1. cbn [filter]. rewrite Hroot.
    rewrite (count_filter_flat_map is_and_or is_bool_op).
    - apply filter_length_permutation, ast_walk_permutation.
    - eapply Permutation_Forall; [|exact Hplace].
      apply Permutation_sym, ast_walk_permutation. }
  split; [exact Hcount|].
  cbn [complex_condition_report]. now rewrite Hcount.
Qed.

Lemma bool_ops_counted_per_node_witness :
  is_and_or nested_test = false
  /\ Forall ops_in_place (nodes_of nested_test)
  /\ count_bool_ops nested_test
     = List.length (filter is_bool_op (nodes_of nested_test))
  /\ complex_condition_report (If 1 nested_test [pass_stmt] [])
     = if (3 <? List.length (filter is_bool_op (nodes_of nested_test)))%nat
       then [complex_condition_issue 1] else [].
Proof.
  assert (Forall ops_in_place (nodes_of nested_test)) as H
    by (repeat constructor).
  split; [reflexivity|]. split; [exact H|].
  apply (bool_ops_counted_per_node 1 nested_test [pass_stmt] []);
    [reflexivity|exact H].
Defined.

(** ** [split], the lines of a text and the segments of a dotted name *)

Lemma split_cons (sep : ascii) (s : string) :
  exists piece pieces, split sep s = piece :: pieces.
Proof.
  induction s as [|c rest [piece [pieces IH]]]; cbn [split]; [eauto|].
  destruct (Ascii.eqb c sep); [eauto|]. rewrite IH. eauto.
Qed.

Lemma split_pieces (sep : ascii) (s : string) :
  join sep (split sep s) = s
  /\ Forall (fun piece => contains sep piece = false) (split sep s)
  /\ List.length (split sep s)
     = S (List.length (filter (Ascii.eqb sep) (list_ascii_of_string s))).
Proof.
  induction s as [|c rest (Hjoin & Hfree & Hlen)].
  - cbn. repeat split. repeat constructor.
  - cbn [split list_ascii_of_string filter].
    rewrite (Ascii.eqb_sym sep c).
    destruct (split_cons sep rest) as [piece [pieces E]]. rewrite E in *.
    destruct (Ascii.eqb c sep) eqn:Ec.
    + apply Ascii.eqb_eq in Ec. subst c.
      split; [|split].
      * rewrite <- Hjoin. reflexivity.
      * constructor; [reflexivity|exact Hfree].
      * cbn [List.length] in *. now rewrite Hlen.
    + split; [|split].
      * rewrite <- Hjoin. destruct pieces; reflexivity.
      * inversion Hfree as [|? ? Hp Hps]; subst. constructor; [|exact Hps].
        unfold contains in *. cbn [list_ascii_of_string existsb].
        rewrite (Ascii.eqb_sym sep c), Ec. exact Hp.
      * exact Hlen.
Qed.

(** X15: The pieces joined by the separator give the text back, no piece holds
    the separator, and there is one piece more than separators: for the
    lines of a source and for the segments of a dotted module name. *)
Theorem split_join (sep : ascii) (s : string) :
  join sep (split sep s) = s
  /\ Forall (fun piece => contains sep piece = false) (split sep s)
  /\ List.length (split sep s)
     = S (List.length (filter (Ascii.eqb sep) (list_ascii_of_string s))).
Proof. apply split_pieces. Qed.

Lemma split_without_separator (sep : ascii) (s : string) :
  contains sep s = false -> split sep s = [s].
Proof.
  unfold contains. induction s as [|c rest IH]; [reflexivity|].
  cbn [list_ascii_of_string existsb split]. intros H.
  apply orb_false_iff in H as [Hc Hrest].
  rewrite (Ascii.eqb_sym c sep), Hc. now rewrite (IH Hrest).
Qed.

Lemma startswith_first_piece (sep : ascii) (s : string) :
  startswith (List.hd EmptyString (split sep s)) s = true.
Proof.
  induction s as [|c rest IH]; [reflexivity|].
  cbn [split]. destruct (Ascii.eqb c sep); [reflexivity|].
  destruct (split_cons sep rest) as [piece [pieces E]]. rewrite E in *.
  cbn [List.hd startswith] in *. now rewrite Ascii.eqb_refl, IH.
Qed.

(** X16: The name [_check_unused_imports] collects for [import a.b.c]: the text
    before the first dot.  It holds no dot, the module name begins with it,
    and it is the module name itself exactly when that has no dot. *)
Theorem top_level_segment (name : string) :
  let segment := List.hd EmptyString (split dot name) in
  contains dot segment = false
  /\ startswith segment name = true
  /\ (segment = name <-> contains dot name = false).
Proof.
  cbv zeta. destruct (split_pieces dot name) as (_ & Hfree & _).
  assert (contains dot (List.hd EmptyString (split dot name)) = false) as Hseg.
  { destruct (split_cons dot name) as [piece [pieces E]]. rewrite E in *.
    now inversion Hfree. }
  split; [exact Hseg|]. split; [apply startswith_first_piece|].
  split.
  - intros E. now rewrite E in Hseg.
  - intros H. now rewrite (split_without_separator _ _ H).
Qed.

(** ** Whole-word matches *)

Lemma startswith_length (p s : string) :
  startswith p s = true -> (String.length p <= String.length s)%nat.
Proof.
  revert s. induction p as [|a p IH]; intros s H; [simpl; lia|].
  destruct s as [|b s]; [discriminate|]. cbn [startswith] in H.
  apply andb_true_iff in H as [_ H]. apply IH in H. simpl. lia.
Qed.

Lemma findall_from_bound (name : string) (skip : nat) (prev : option ascii)
    (s : string) :
  (1 <= String.length name)%nat ->
  (List.length (findall_from name skip prev s) * String.length name
   <= String.length s - skip)%nat
  /\ Forall (eq name) (findall_from name skip prev s).
Proof.
  intros Hname. revert skip prev.
  induction s as [|c rest IH]; intros skip prev.
  - cbn [findall_from]. destruct skip as [|k]; [|split; [simpl; lia|constructor]].
    destruct (word_matches_here name prev EmptyString) eqn:E;
      [|split; [simpl; lia|constructor]].
    unfold word_matches_here in E.
    apply andb_true_iff in E as [E _]. apply andb_true_iff in E as [_ E].
    apply startswith_length in E. simpl in E. lia.
  - cbn [findall_from]. destruct skip as [|k].
    + destruct (word_matches_here name prev (String c rest)) eqn:E.
      * destruct (IH (Nat.pred (String.length name)) (Some c)) as [Hn Hall].
        split; [|constructor; [reflexivity|exact Hall]].
        unfold word_matches_here in E.
        apply andb_true_iff in E as [E _]. apply andb_true_iff in E as [_ E].
        apply startswith_length in E. cbn [String.length] in *.
        cbn [app List.length]. nia.
      * destruct (IH O (Some c)) as [Hn Hall].
        split; [|exact Hall]. cbn [app String.length Nat.pred] in *. lia.
    + destruct (IH k (Some c)) as [Hn Hall].
      split; [|exact Hall]. cbn [app String.length Nat.pred] in *. lia.
Qed.

(** X17: The matches of [re.findall] for a name do not overlap: as many copies of
    the name as there are matches fit in the text.  Each match is the name
    itself. *)
Theorem re_findall_word_bound (name code : string) :
  (1 <= String.length name)%nat ->
  (List.length (re_findall_word name code) * String.length name
   <= String.length code)%nat
  /\ Forall (eq name) (re_findall_word name code).
Proof.
  intros Hname. unfold re_findall_word.
  destruct (findall_from_bound name 0 None code Hname) as [Hn Hall].
  split; [lia|exact Hall].
Qed.

Lemma re_findall_word_bound_witness :
  (1 <= String.length "os")%nat
  /\ (List.length (re_findall_word "os" "os os.x cosos os") * String.length "os"
      <= String.length "os os.x cosos os")%nat
  /\ Forall (eq "os") (re_findall_word "os" "os os.x cosos os").
Proof.
  split; [simpl; lia|].
  apply (re_findall_word_bound "os" "os os.x cosos os"). simpl; lia.
Defined.

(** ** Unused imports *)

Lemma str_in_In (x : string) (names : list string) :
  str_in x names = true <-> In x names.
Proof.
  unfold str_in. rewrite existsb_exists. split.
  - intros [y [Hy E]]. apply String.eqb_eq in E. now subst.
  - intros H. exists x. split; [exact H|apply String.eqb_refl].
Qed.

Lemma first_import_report_cases (name : string) (nodes : list node) :
  (first_import_report name nodes = []
   /\ forall n, In n nodes -> ~ lists_name name n)
  \/ exists lineno names,
       (In (Import lineno names) nodes \/ In (ImportFrom lineno names) nodes)
       /\ In name (map alias_name names)
       /\ first_import_report name nodes = [unused_import_issue lineno name].
Proof.
  induction nodes as [|n rest IH].
  - left. split; [reflexivity|]. intros n [].
  - assert (~ lists_name name n ->
            first_import_report name (n :: rest) = first_import_report name rest ->
            (first_import_report name (n :: rest) = []
             /\ forall m, In m (n :: rest) -> ~ lists_name name m)
            \/ exists lineno names,
                 (In (Import lineno names) (n :: rest)
                  \/ In (ImportFrom lineno names) (n :: rest))
                 /\ In name (map alias_name names)
                 /\ first_import_report name (n :: rest)
                    = [unused_import_issue lineno name]) as Hskip.
    { intros Hn Heq. rewrite Heq.
      destruct IH as [[Hnil Hnone]|(lineno & names & Hin & Hname & Hrep)].
      - left. split; [exact Hnil|]. intros m [<-|Hm]; auto.
      - right. exists lineno, names. split; [|split; assumption].
        destruct Hin; [left|right]; now right. }
    destruct n;
      try (apply Hskip; [intros (l & ns & [E|E] & _); discriminate E|reflexivity]).
    + destruct (str_in name (map alias_name names)) eqn:E.
      * right. exists lineno, names. cbn [first_import_report]. rewrite E.
        apply str_in_In in E.
        split; [left; now left|]. split; [exact E|reflexivity].
      * apply Hskip; [|cbn [first_import_report]; now rewrite E].
        intros (l & ns & [Hn|Hn] & Hname); [|discriminate Hn].
        injection Hn as -> ->. apply str_in_In in Hname. congruence.
    + destruct (str_in name (map alias_name names)) eqn:E.
      * right. exists lineno, names. cbn [first_import_report]. rewrite E.
        apply str_in_In in E.
        split; [right; now left|]. split; [exact E|reflexivity].
      * apply Hskip; [|cbn [first_import_report]; now rewrite E].
        intros (l & ns & [Hn|Hn] & Hname); [discriminate Hn|].
        injection Hn as -> ->. apply str_in_In in Hname. congruence.
Qed.

Lemma In_ast_walk (n tree : node) :
  In n (ast_walk tree) <-> In n (nodes_of tree).
Proof.
  split; apply Permutation_in;
    [|apply Permutation_sym]; apply ast_walk_permutation.
Qed.

(** X18: For one collected name the check reports at most one issue; none when
    the name has two whole-word matches or more; and an issue it reports
    carries the line of an import statement of the tree that lists exactly
    that name among its aliases. *)
Theorem unused_import_report_sound (tree : node) (code import_name : string) :
  (List.length (unused_import_report tree code import_name) <= 1)%nat
  /\ ((2 <= List.length (re_findall_word import_name code))%nat ->
      unused_import_report tree code import_name = [])
  /\ (forall i, In i (unused_import_report tree code import_name) ->
        exists lineno names,
          (In (Import lineno names) (nodes_of tree)
           \/ In (ImportFrom lineno names) (nodes_of tree))
          /\ In import_name (map alias_name names)
          /\ i = unused_import_issue lineno import_name).
Proof.
  unfold unused_import_report.
  destruct (Nat.leb_spec (List.length (re_findall_word import_name code)) 1)
    as [Hle|Hgt].
  - destruct (first_import_report_cases import_name (ast_walk tree))
      as [[-> _]|(lineno & names & Hin & Hname & ->)].
    + split; [simpl; lia|]. split; [reflexivity|]. intros i [].
    + split; [simpl; lia|]. split; [lia|].
      intros i [<-|[]]. exists lineno, names.
      rewrite !In_ast_walk in Hin. auto.
  - split; [simpl; lia|]. split; [reflexivity|]. intros i [].
Qed.

Lemma listed_name_reported (tree : node) (code import_name : string)
    (n : node) :
  In n (nodes_of tree) ->
  lists_name import_name n ->
  (List.length (re_findall_word import_name code) <= 1)%nat ->
  exists first_line,
    unused_import_report tree code import_name
    = [unused_import_issue first_line import_name].
Proof.
  intros Hn Hlists Hcount. unfold unused_import_report.
  apply Nat.leb_le in Hcount. rewrite Hcount.
  destruct (first_import_report_cases import_name (ast_walk tree))
    as [[_ Hnone]|(lineno & names & _ & _ & ->)]; [|eauto].
  exfalso. apply (Hnone n); [now apply In_ast_walk|exact Hlists].
Qed.

Lemma collect_imports_In (tree n : node) (name : string) :
  In n (nodes_of tree) ->
  In name (imported_names n) ->
  In name (collect_imports tree).
Proof.
  intros Hn Hname. unfold collect_imports. apply in_flat_map.
  exists n. split; [now apply In_ast_walk|exact Hname].
Qed.

(** X19: A name imported by [from m import name] that has at most one whole-word
    match in the text is collected and reported once, wherever the statement
    stands in the tree. *)
Theorem from_import_reported (tree : node) (code : string) (lineno : Z)
    (names : list alias) (a : alias) :
  In (ImportFrom lineno names) (nodes_of tree) ->
  In a names ->
  (List.length (re_findall_word (alias_name a) code) <= 1)%nat ->
  In (alias_name a) (collect_imports tree)
  /\ exists first_line,
       unused_import_report tree code (alias_name a)
       = [unused_import_issue first_line (alias_name a)].
Proof.
  intros Hn Ha Hcount. split.
  - apply (collect_imports_In tree _ _ Hn). cbn [imported_names].
    now apply in_map.
  - apply (listed_name_reported tree code _ _ Hn); [|exact Hcount].
    exists lineno, names. split; [now right|now apply in_map].
Qed.

Lemma from_import_reported_witness :
  In (ImportFrom 1 [mk_alias "path" None]) (nodes_of from_import_tree)
  /\ In (mk_alias "path" None) [mk_alias "path" None]
  /\ (List.length (re_findall_word (alias_name (mk_alias "path" None))
                     "from os import path") <= 1)%nat
  /\ In (alias_name (mk_alias "path" None)) (collect_imports from_import_tree)
  /\ exists first_line,
       unused_import_report from_import_tree "from os import path"
         (alias_name (mk_alias "path" None))
       = [unused_import_issue first_line (alias_name (mk_alias "path" None))].
Proof.
  assert (In (ImportFrom 1 [mk_alias "path" None]) (nodes_of from_import_tree))
    as H1 by (simpl; auto).
  assert (In (mk_alias "path" None) [mk_alias "path" None]) as H2 by (simpl; auto).
  assert (List.length (re_findall_word (alias_name (mk_alias "path" None))
                         "from os import path") <= 1)%nat as H3
    by (vm_compute; lia).
  split; [exact H1|]. split; [exact H2|]. split; [exact H3|].
  apply (from_import_reported from_import_tree "from os import path" 1
           [mk_alias "path" None] (mk_alias "path" None) H1 H2 H3).
Defined.

(** X20: A module imported by [import name], the name without a dot, that has at
    most one whole-word match in the text is collected and reported once. *)
Theorem undotted_import_reported (tree : node) (code : string) (lineno : Z)
    (names : list alias) (a : alias) :
  In (Import lineno names) (nodes_of tree) ->
  In a names ->
  contains dot (alias_name a) = false ->
  (List.length (re_findall_word (alias_name a) code) <= 1)%nat ->
  In (alias_name a) (collect_imports tree)
  /\ exists first_line,
       unused_import_report tree code (alias_name a)
       = [unused_import_issue first_line (alias_name a)].
Proof.
  intros Hn Ha Hdot Hcount. split.
  - apply (collect_imports_In tree _ _ Hn). cbn [imported_names].
    apply in_map_iff. exists a. split; [|exact Ha].
    now rewrite (split_without_separator _ _ Hdot).
  - apply (listed_name_reported tree code _ _ Hn); [|exact Hcount].
    exists lineno, names. split; [now left|now apply in_map].
Qed.

Lemma undotted_import_reported_witness :
  In (Import 1 [mk_alias "os" None]) (nodes_of plain_import_tree)
  /\ In (mk_alias "os" None) [mk_alias "os" None]
  /\ contains dot (alias_name (mk_alias "os" None)) = false
  /\ (List.length (re_findall_word (alias_name (mk_alias "os" None))
                     plain_import_source) <= 1)%nat
  /\ In (alias_name (mk_alias "os" None)) (collect_imports plain_import_tree)
  /\ exists first_line,
       unused_import_report plain_import_tree plain_import_source
         (alias_name (mk_alias "os" None))
       = [unused_import_issue first_line (alias_name (mk_alias "os" None))].
Proof.
  assert (In (Import 1 [mk_alias "os" None]) (nodes_of plain_import_tree))
    as H1 by (simpl; auto).
  assert (In (mk_alias "os" None) [mk_alias "os" None]) as H2 by (simpl; auto).
  assert (contains dot (alias_name (mk_alias "os" None)) = false) as H3
    by reflexivity.
  assert (List.length (re_findall_word (alias_name (mk_alias "os" None))
                         plain_import_source) <= 1)%nat as H4
    by (vm_compute; lia).
  split; [exact H1|]. split; [exact H2|]. split; [exact H3|]. split; [exact H4|].
  apply (undotted_import_reported plain_import_tree plain_import_source 1
           [mk_alias "os" None] (mk_alias "os" None) H1 H2 H3 H4).
Defined.

(** ** Naming conventions *)

Lemma all_chars_forallb (p : ascii -> bool) (s : string) :
  contains newline s = false ->
  all_chars p s = forallb p (list_ascii_of_string s).
Proof.
  unfold contains. induction s as [|c rest IH]; [reflexivity|].
  cbn [list_ascii_of_string existsb forallb]. intros H.
  apply orb_false_iff in H as [Hc Hrest].
  destruct rest as [|d rest'].
  - cbn [all_chars list_ascii_of_string forallb].
    rewrite (Ascii.eqb_sym c newline), Hc. now rewrite orb_false_r, andb_true_r.
  - change (all_chars p (String c (String d rest')))
      with (p c && all_chars p (String d rest')).
    now rewrite (IH Hrest).
Qed.

(** X22: Which function names the check lets pass, for a name without a newline:
    those that begin with two underscores, and those made of a lowercase
    letter or an underscore followed by lowercase letters, digits and
    underscores.  Any other name is reported once. *)
Theorem function_name_accepted_iff (lineno : Z) (end_lineno : option Z)
    (name : string) (args : node) (body decorator_list : list node)
    (returns : option node) (type_params : list node) :
  contains newline name = false ->
  let n := FunctionDef lineno end_lineno name args body decorator_list returns
             type_params in
  (naming_report n = []
   \/ naming_report n
      = [ {| line_number := lineno;
             issue_type := "naming_convention";
             severity := "info";
             message := ("Function '" ++ name
                         ++ "' doesn't follow snake_case convention")%string;
             suggestion := "Use snake_case for function names (e.g., my_function)" |} ])
  /\ (naming_report n = []
      <-> startswith "__" name = true
          \/ exists c rest,
               name = String c rest
               /\ is_lower c || is_underscore c = true
               /\ forallb (fun c => is_lower c || is_digit c || is_underscore c)
                    (list_ascii_of_string rest) = true).
Proof.
  intros Hnl. cbv zeta. cbn [naming_report].
  assert (re_match_snake_case name = true
          <-> exists c rest,
                name = String c rest
                /\ is_lower c || is_underscore c = true
                /\ forallb (fun c => is_lower c || is_digit c || is_underscore c)
                     (list_ascii_of_string rest) = true) as Hsnake.
  { destruct name as [|c rest].
    - split; [discriminate|]. intros (c & rest & E & _). discriminate E.
    - cbn [re_match_snake_case]. rewrite all_chars_forallb.
      + rewrite andb_true_iff. split.
        * intros [H1 H2]. eauto.
        * intros (c' & rest' & [= -> ->] & H1 & H2). auto.
      + unfold contains in *. cbn [list_ascii_of_string existsb] in Hnl.
        now apply orb_false_iff in Hnl as [_ Hnl]. }
  destruct (re_match_snake_case name); destruct (startswith "__" name);
    cbn [negb andb]; (split; [auto|]).
  - split; auto.
  - split; [intros _; right; now apply Hsnake|reflexivity].
  - split; auto.
  - split; [discriminate|]. intros [H|H]; [discriminate H|].
    apply Hsnake in H. discriminate H.
Qed.

Lemma function_name_accepted_iff_witness :
  contains newline "calculateTotal" = false
  /\ let n := FunctionDef 2 (Some 10) "calculateTotal" no_arguments [pass_stmt]
                [] None [] in
     (naming_report n = []
      \/ naming_report n
         = [ {| line_number := 2;
                issue_type := "naming_convention";
                severity := "info";
                message := ("Function '" ++ "calculateTotal"
                            ++ "' doesn't follow snake_case convention")%string;
                suggestion := "Use snake_case for function names (e.g., my_function)" |} ])
     /\ (naming_report n = []
         <-> startswith "__" "calculateTotal" = true
             \/ exists c rest,
                  "calculateTotal" = String c rest
                  /\ is_lower c || is_underscore c = true
                  /\ forallb (fun c => is_lower c || is_digit c || is_underscore c)
                       (list_ascii_of_string rest) = true).
Proof.
  split; [reflexivity|].
  apply (function_name_accepted_iff 2 (Some 10) "calculateTotal" no_arguments
           [pass_stmt] [] None []).
  reflexivity.
Defined.

(** X23: Which class names the check lets pass, for a name without a newline:
    those made of an uppercase letter followed by letters and digits, so
    never one with an underscore.  Any other name is reported once; no name
    is exempt. *)
Theorem class_name_accepted_iff (lineno : Z) (name : string)
    (bases keywords body decorator_list type_params : list node) :
  contains newline name = false ->
  let n := ClassDef lineno name bases keywords body decorator_list type_params in
  (naming_report n = []
   \/ naming_report n
      = [ {| line_number := lineno;
             issue_type := "naming_convention";
             severity := "info";
             message := ("Class '" ++ name
                         ++ "' doesn't follow PascalCase convention")%string;
             suggestion := "Use PascalCase for class names (e.g., MyClass)" |} ])
  /\ (naming_report n = []
      <-> exists c rest,
            name = String c rest
            /\ is_upper c = true
            /\ forallb (fun c => is_lower c || is_upper c || is_digit c)
                 (list_ascii_of_string rest) = true)
  /\ (contains "_" name = true -> naming_report n <> []).
Proof.
  intros Hnl. cbv zeta. cbn [naming_report].
  assert (re_match_pascal_case name = true
          <-> exists c rest,
                name = String c rest
                /\ is_upper c = true
                /\ forallb (fun c => is_lower c || is_upper c || is_digit c)
                     (list_ascii_of_string rest) = true) as Hpascal.
  { destruct name as [|c rest].
    - split; [discriminate|]. intros (c & rest & E & _). discriminate E.
    - cbn [re_match_pascal_case]. rewrite all_chars_forallb.
      + rewrite andb_true_iff. split.
        * intros [H1 H2]. eauto.
        * intros (c' & rest' & [= -> ->] & H1 & H2). auto.
      + unfold contains in *. cbn [list_ascii_of_string existsb] in Hnl.
        now apply orb_false_iff in Hnl as [_ Hnl]. }
  assert (contains "_" name = true -> re_match_pascal_case name = false)
    as Hunder.
  { intros Hu. apply not_true_is_false. intros E.
    apply Hpascal in E as (c & rest & -> & Hc & Hrest).
    unfold contains in Hu. cbn [list_ascii_of_string existsb] in Hu.
    apply orb_true_iff in Hu as [Hu|Hu].
    - apply Ascii.eqb_eq in Hu. subst c. discriminate Hc.
    - apply existsb_exists in Hu as (d & Hd & Hu).
      apply Ascii.eqb_eq in Hu. subst d.
      rewrite forallb_forall in Hrest. specialize (Hrest _ Hd).
      discriminate Hrest. }
  destruct (re_match_pascal_case name); cbn [negb].
  - split; [auto|]. split; [split; [intros _; now apply Hpascal|reflexivity]|].
    intros Hu. specialize (Hunder Hu). discriminate Hunder.
  - split; [auto|]. split; [|discriminate].
    split; [discriminate|]. intros H. apply Hpascal in H. discriminate H.
Qed.

Lemma class_name_accepted_iff_witness :
  contains newline "user_account" = false
  /\ let n := ClassDef 12 "user_account" [] [] [pass_stmt] [] [] in
     (naming_report n = []
      \/ naming_report n
         = [ {| line_number := 12;
                issue_type := "naming_convention";
                severity := "info";
                message := ("Class '" ++ "user_account"
                            ++ "' doesn't follow PascalCase convention")%string;
                suggestion := "Use PascalCase for class names (e.g., MyClass)" |} ])
     /\ (naming_report n = []
         <-> exists c rest,
               "user_account" = String c rest
               /\ is_upper c = true
               /\ forallb (fun c => is_lower c || is_upper c || is_digit c)
                    (list_ascii_of_string rest) = true)
     /\ (contains "_" "user_account" = true -> naming_report n <> []).
Proof.
  split; [reflexivity|].
  apply (class_name_accepted_iff 12 "user_account" [] [] [pass_stmt] [] []).
  reflexivity.
Defined.

(** ** The [/analyze] endpoint *)

Lemma rstrip_empty (s : string) :
  rstrip s = EmptyString <-> forallb is_space (list_ascii_of_string s) = true.
Proof.
  induction s as [|c rest IH]; [now split|].
  cbn [rstrip list_ascii_of_string forallb]. rewrite andb_true_iff.
  destruct (rstrip rest) as [|d kept].
  - destruct (is_space c).
    + split; [intros _; split; [reflexivity|now apply IH]|reflexivity].
    + split; [discriminate|]. intros [H _]. discriminate H.
  - split; [discriminate|]. intros [_ H]. apply IH in H. discriminate H.
Qed.

Lemma lstrip_spaces (s : string) :
  forallb is_space (list_ascii_of_string (lstrip s))
  = forallb is_space (list_ascii_of_string s).
Proof.
  induction s as [|c rest IH]; [reflexivity|].
  cbn [lstrip]. destruct (is_space c) eqn:E; [|reflexivity].
  cbn [list_ascii_of_string forallb]. now rewrite E, IH.
Qed.

Lemma strip_empty (s : string) :
  strip s = EmptyString <-> forallb is_space (list_ascii_of_string s) = true.
Proof.
  unfold strip. now rewrite rstrip_empty, lstrip_spaces.
Qed.

Section ServiceFacts.

Variable ast_parse : string -> parse_outcome.
Variable str_of_exception : exception -> string.

(** X25: A submission is turned down with status 400 exactly when its code is
    empty or all whitespace; the analyzer is then left as it was, not even
    reset. *)
Theorem blank_submission_rejected (submission : CodeSubmission.t)
    (analyzer : PythonCodeAnalyzer) :
  forallb is_space (list_ascii_of_string (CodeSubmission.code submission)) = true
  <-> analyze_endpoint ast_parse str_of_exception submission analyzer
      = Served (HTTPException 400 "Code cannot be empty") analyzer.
Proof.
  rewrite <- strip_empty. unfold analyze_endpoint.
  destruct (strip (CodeSubmission.code submission)) as [|c kept].
  - split; reflexivity.
  - split; [discriminate|].
    destruct (analyze_code ast_parse (CodeSubmission.code submission) analyzer);
      discriminate.
Qed.


(** X24: The [naming_convention] issues of a successful analysis are what the
    function and class definitions of the tree contribute, in the order of
    the walk. *)
Theorem naming_convention_issues (code : string) (tree : node)
    (self : PythonCodeAnalyzer) :
  ast_parse code = Parsed tree ->
  exists r self',
    analyze_code ast_parse code self = Return r self'
    /\ filter (has_type "naming_convention") (Result.issues r)
       = map issue_dict (flat_map naming_report (ast_walk tree))
    /\ (forall n,
          (forall lineno end_lineno name args body decorator_list returns type_params,
              n <> FunctionDef lineno end_lineno name args body decorator_list
                     returns type_params) ->
          (forall lineno name bases keywords body decorator_list type_params,
              n <> ClassDef lineno name bases keywords body decorator_list
                     type_params) ->
          naming_report n = []).
Proof.
  intros Hparse. eexists _, _.
  rewrite (analyze_code_parsed ast_parse _ _ _ Hparse).
  split; [reflexivity|]. cbn [success_result Result.issues]. split.
  - rewrite filter_all_reports. cbn [String.eqb Ascii.eqb Bool.eqb].
    cbn [app]. reflexivity.
  - intros n Hf Hc. destruct n; try reflexivity; exfalso;
      [eapply Hf|eapply Hc]; reflexivity.
Qed.

End ServiceFacts.


(** ** The analysis facts at the sample sources *)

Lemma missing_docstring_issues_witness :
  sample_parse long_function_source = Parsed long_function_tree
  /\ exists r self',
       analyze_code sample_parse long_function_source new_analyzer = Return r self'
       /\ filter (has_type "missing_docstring") (Result.issues r)
          = map issue_dict
              (flat_map missing_docstring_report (ast_walk long_function_tree))
       /\ (forall lineno end_lineno name args body decorator_list returns type_params,
             let n := FunctionDef lineno end_lineno name args body decorator_list
                        returns type_params in
             (forall doc rest, body = Expr (Constant (CStr doc)) :: rest ->
                               missing_docstring_report n = [])
             /\ ((forall doc rest, body <> Expr (Constant (CStr doc)) :: rest) ->
                 missing_docstring_report n
                 = [ {| line_number := lineno;
                        issue_type := "missing_docstring";
                        severity := "info";
                        message := ("Function '" ++ name
                                    ++ "' is missing a docstring")%string;
                        suggestion :=
                          "Add a docstring to document what this function does" |} ]))
       /\ (forall lineno name bases keywords body decorator_list type_params,
             let n := ClassDef lineno name bases keywords body decorator_list
                        type_params in
             (forall doc rest, body = Expr (Constant (CStr doc)) :: rest ->
                               missing_docstring_report n = [])
             /\ ((forall doc rest, body <> Expr (Constant (CStr doc)) :: rest) ->
                 missing_docstring_report n
                 = [ {| line_number := lineno;
                        issue_type := "missing_docstring";
                        severity := "info";
                        message := ("Class '" ++ name
                                    ++ "' is missing a docstring")%string;
                        suggestion :=
                          "Add a docstring to document what this class does" |} ])).
Proof.
  split; [vm_compute; reflexivity|].
  apply (missing_docstring_issues sample_parse long_function_source
           long_function_tree new_analyzer).
  vm_compute; reflexivity.
Defined.

Lemma issues_grouped_by_check_witness :
  sample_parse long_function_source = Parsed long_function_tree
  /\ exists r self' a b c d e,
       analyze_code sample_parse long_function_source new_analyzer = Return r self'
       /\ map Result.type (Result.issues r)
          = repeat "function_length" a ++ repeat "missing_docstring" b
            ++ repeat "unused_import" c ++ repeat "complex_condition" d
            ++ repeat "naming_convention" e
       /\ Result.total_issues r = (a + b + c + d + e)%nat.
Proof.
  split; [vm_compute; reflexivity|].
  apply (issues_grouped_by_check sample_parse long_function_source
           long_function_tree new_analyzer).
  vm_compute; reflexivity.
Defined.

Lemma successful_analysis_has_no_error_witness :
  sample_parse long_function_source = Parsed long_function_tree
  /\ exists r self',
       analyze_code sample_parse long_function_source new_analyzer = Return r self'
       /\ Forall (fun i => (Result.severity i = "warning"
                            \/ Result.severity i = "info")
                           /\ Result.type i <> "syntax_error")
            (Result.issues r).
Proof.
  split; [vm_compute; reflexivity|].
  apply (successful_analysis_has_no_error sample_parse long_function_source
           long_function_tree new_analyzer).
  vm_compute; reflexivity.
Defined.

Lemma score_counts_warnings_and_infos_witness :
  sample_parse long_function_source = Parsed long_function_tree
  /\ exists r self',
       analyze_code sample_parse long_function_source new_analyzer = Return r self'
       /\ (number_value (Result.quality_score r)
           == inject_Z
                (Z.max 0 (100 - 10 * Z.of_nat (count_severity "warning" (Result.issues r))
                              - 5 * Z.of_nat (count_severity "info" (Result.issues r)))))%Q
       /\ (count_severity "warning" (Result.issues r)
           + count_severity "info" (Result.issues r))%nat = Result.total_issues r.
Proof.
  split; [vm_compute; reflexivity|].
  apply (score_counts_warnings_and_infos sample_parse long_function_source
           long_function_tree new_analyzer).
  vm_compute; reflexivity.
Defined.

Lemma naming_convention_issues_witness :
  sample_parse long_function_source = Parsed long_function_tree
  /\ exists r self',
       analyze_code sample_parse long_function_source new_analyzer = Return r self'
       /\ filter (has_type "naming_convention") (Result.issues r)
          = map issue_dict (flat_map naming_report (ast_walk long_function_tree))
       /\ (forall n,
             (forall lineno end_lineno name args body decorator_list returns type_params,
                 n <> FunctionDef lineno end_lineno name args body decorator_list
                        returns type_params) ->
             (forall lineno name bases keywords body decorator_list type_params,
                 n <> ClassDef lineno name bases keywords body decorator_list
                        type_params) ->
             naming_report n = []).
Proof.
  split; [vm_compute; reflexivity|].
  apply (naming_convention_issues sample_parse long_function_source
           long_function_tree new_analyzer).
  vm_compute; reflexivity.
Defined.

Lemma unused_import_issues_witness :
  sample_parse plain_import_source = Parsed plain_import_tree
  /\ exists r self',
       analyze_code sample_parse plain_import_source new_analyzer = Return r self'
       /\ filter (has_type "unused_import") (Result.issues r)
          = map issue_dict
              (flat_map (unused_import_report plain_import_tree plain_import_source)
                 (collect_imports plain_import_tree)).
Proof.
  split; [vm_compute; reflexivity|].
  apply (unused_import_issues sample_parse plain_import_source
           plain_import_tree new_analyzer).
  vm_compute; reflexivity.
Defined.

Lemma complex_condition_issues_witness :
  sample_parse chain4_source = Parsed chain4_tree
  /\ exists r self',
       analyze_code sample_parse chain4_source new_analyzer = Return r self'
       /\ filter (has_type "complex_condition") (Result.issues r)
          = map issue_dict
              (flat_map complex_condition_report (ast_walk chain4_tree)).
Proof.
  split; [vm_compute; reflexivity|].
  apply (complex_condition_issues sample_parse chain4_source
           chain4_tree new_analyzer).
  vm_compute; reflexivity.
Defined.
